(** * The Go Brewery: the two in-memory REST services

    A shallow embedding of the Gin todo service
    (3-creating-http-server-using-gin/main.go) and of the Fiber book
    service (4-creating-http-server-using-fiber/main.go), with the
    properties of their stores.

    Each handler is a function from the request data it reads (path
    parameter, query parameters, decoded body) and the package-level store
    to the response it writes and the store it leaves behind. *)

From Stdlib Require Import ZArith Ascii String.
From stdpp Require Import base list strings.

Local Open Scope string_scope.
Local Open Scope list_scope.

(** ** The pieces of Go's standard library the handlers call *)

(** [strings.ToLower], [strings.EqualFold], [strconv.ParseBool] and
    [strconv.Atoi] belong to Go's library, not to the repository: the
    services are embedded over any implementation of them. [ParseBool] and
    [Atoi] return [None] where Go returns an error. *)
Class GoStrings := {
  ToLower : string → string;
  EqualFold : string → string → bool;
  ParseBool : string → option bool;
  Atoi : string → option Z
}.

(** Go's [int] on the 64-bit platforms: a [Z] between [minInt] and
    [maxInt]; arithmetic wraps around. *)
Definition minInt : Z := - 2 ^ 63.
Definition maxInt : Z := 2 ^ 63 - 1.
Definition wrap (z : Z) : Z := ((z - minInt) `mod` 2 ^ 64 + minInt)%Z.

(** [strings.HasPrefix]: [s] starts with the bytes of [prefix]. *)
Fixpoint HasPrefix (s prefix : string) : bool :=
  match prefix, s with
  | EmptyString, _ => true
  | String _ _, EmptyString => false
  | String p prefix', String c s' => Ascii.eqb c p && HasPrefix s' prefix'
  end.

(** [strings.Contains]: [substr] occurs in [s] at some byte offset. *)
Fixpoint Contains (s substr : string) : bool :=
  HasPrefix s substr ||
  match s with
  | EmptyString => false
  | String _ s' => Contains s' substr
  end.

(** An instance on ASCII text, where the library functions are the
    byte-wise ones; it is used to run the services on concrete requests. *)
Module Ascii7.

Definition lowerByte (c : ascii) : ascii :=
  let n := nat_of_ascii c in
  if (65 <=? n)%nat && (n <=? 90)%nat then ascii_of_nat (n + 32) else c.

Fixpoint toLower (s : string) : string :=
  match s with
  | EmptyString => EmptyString
  | String c s' => String (lowerByte c) (toLower s')
  end.

Definition equalFold (s t : string) : bool :=
  String.eqb (toLower s) (toLower t).

(** The table of [strconv.ParseBool]. *)
Definition parseBool (str : string) : option bool :=
  if existsb (String.eqb str) ["1"; "t"; "T"; "TRUE"; "true"; "True"]
  then Some true
  else if existsb (String.eqb str) ["0"; "f"; "F"; "FALSE"; "false"; "False"]
  then Some false
  else None.

Definition digit (c : ascii) : option Z :=
  let n := nat_of_ascii c in
  if (48 <=? n)%nat && (n <=? 57)%nat then Some (Z.of_nat (n - 48)) else None.

Fixpoint digits (acc : Z) (s : string) : option Z :=
  match s with
  | EmptyString => Some acc
  | String c s' => d ← digit c; digits (10 * acc + d)%Z s'
  end.

(** [strconv.Atoi]: an optional sign, then decimal digits, within [int]. *)
Definition atoi (s : string) : option Z :=
  let '(negative, rest) :=
    match s with
    | String "-" rest => (true, rest)
    | String "+" rest => (false, rest)
    | _ => (false, s)
    end in
  match rest with
  | EmptyString => None
  | _ =>
      n ← digits 0 rest;
      let v := if negative : bool then (- n)%Z else n in
      if ((minInt <=? v) && (v <=? maxInt))%Z then Some v else None
  end.

Definition lib : GoStrings :=
  {| ToLower := toLower; EqualFold := equalFold;
     ParseBool := parseBool; Atoi := atoi |}.

End Ascii7.

(** ** Requests served by goroutines

    The routers of both services run every request in a goroutine of its
    own. A handler on its way is a flow; [step] is the next access it makes
    to the package-level variables, and the scheduler decides whose turn it
    is. Nothing else orders the accesses: the services have no mutex and no
    channel. *)

Section Goroutines.
Variables Flow State : Type.
Variable step : Flow → State → Flow * State.

Record Server := mkServer { flows : list Flow; store : State }.

(** The scheduler lets flow [i] take its next step. *)
Definition schedule (srv : Server) (i : nat) : Server :=
  match flows srv !! i with
  | None => srv
  | Some flow =>
      mkServer (<[i := fst (step flow (store srv))]> (flows srv))
               (snd (step flow (store srv)))
  end.

Definition run (order : list nat) (srv : Server) : Server :=
  fold_left schedule order srv.

(** A flow that takes [k] steps with no other flow in between. *)
Definition alone (k : nat) (flow : Flow) (s : State) : Flow * State :=
  Nat.iter k (λ running, step (fst running) (snd running)) (flow, s).

End Goroutines.

Arguments mkServer {Flow State} _ _.
Arguments flows {Flow State} _.
Arguments store {Flow State} _.
Arguments schedule {Flow State} _ _ _.
Arguments run {Flow State} _ _ _.
Arguments alone {Flow State} _ _ _ _.

(** The order in which each of [n] requests takes its [k] steps before the
    next request starts. *)
Definition oneAtATime (k n : nat) : list nat :=
  flat_map (replicate k) (seq 0 n).

(** The handler called on one request after the other. *)
Fixpoint serveInTurn {Request Response State : Type}
    (handler : Request → State → Response * State)
    (requests : list Request) (s : State) : list Response * State :=
  match requests with
  | [] => ([], s)
  | request :: requests' =>
      let '(response, s1) := handler request s in
      let '(responses, s2) := serveInTurn handler requests' s1 in
      (response :: responses, s2)
  end.

(** ** The Gin todo service *)

Module Gin.

(** [type Todo struct] *)
Record Todo := mkTodo {
  ID : string;
  Item : string;
  Completed : bool
}.

#[global] Instance Todo_eq_dec : EqDecision Todo.
Proof. solve_decision. Defined.

(** [var TODOS]: the store every handler reads and writes. *)
Definition TODOS : list Todo :=
  [ mkTodo "1" "Buy groceries" false;
    mkTodo "2" "Read a book" false;
    mkTodo "3" "Write code" false;
    mkTodo "4" "Go for a walk" false ].

(** What a handler hands to [context.IndentedJSON]. *)
Inductive Body :=
| TodoList (todos : list Todo)
| OneTodo (todo : Todo)
| Message (message : string)
| BindError.

Record Response := mkResponse { status : nat; body : Body }.

Definition StatusOK := 200.
Definition StatusCreated := 201.
Definition StatusBadRequest := 400.
Definition StatusNotFound := 404.

Section Handlers.
Context `{GoStrings}.

Definition containsIgnoreCase (str substr : string) : bool :=
  Contains (ToLower str) (ToLower substr).

(** [getTodoById]: the pointer [&TODOS[i]] it returns is the index [i]
    of the first todo whose ID is [id], with the todo found there;
    [None] is the error. *)
Fixpoint getTodoById (todos : list Todo) (id : string) : option (nat * Todo) :=
  match todos with
  | [] => None
  | todo :: rest =>
      if String.eqb (ID todo) id then Some (0, todo)
      else (λ '(i, found), (S i, found)) <$> getTodoById rest id
  end.

(** One iteration of the loop of [getTodos]: [false] is [continue]. *)
Definition keepTodo (query status : string) (todo : Todo) : bool :=
  if negb (String.eqb query "") && negb (containsIgnoreCase (Item todo) query)
  then false
  else if String.eqb status "true" && negb (Completed todo) then false
  else if String.eqb status "false" && Completed todo then false
  else true.

Definition getTodosLoop (query status : string) (todos : list Todo) : list Todo :=
  fold_left
    (λ filtered todo,
       if keepTodo query status todo then filtered ++ [todo] else filtered)
    todos [].

Definition getTodos (query status : string) (todos : list Todo)
  : Response * list Todo :=
  (mkResponse StatusOK (TodoList (getTodosLoop query status todos)), todos).

(** [addTodo]: [newTodo] is [None] when [BindJSON] fails. *)
Definition addTodo (newTodo : option Todo) (todos : list Todo)
  : Response * list Todo :=
  match newTodo with
  | None => (mkResponse StatusBadRequest BindError, todos)
  | Some todo => (mkResponse StatusCreated (OneTodo todo), todos ++ [todo])
  end.

Definition getTodo (id : string) (todos : list Todo) : Response * list Todo :=
  match getTodoById todos id with
  | None => (mkResponse StatusNotFound (Message "Todo not found"), todos)
  | Some (_, todo) => (mkResponse StatusOK (OneTodo todo), todos)
  end.

(** [todo.Completed = !todo.Completed] through the pointer. *)
Definition toggle (todo : Todo) : Todo :=
  mkTodo (ID todo) (Item todo) (negb (Completed todo)).

Definition updateTodoStatus (id : string) (todos : list Todo)
  : Response * list Todo :=
  match getTodoById todos id with
  | None => (mkResponse StatusNotFound (Message "Todo not found"), todos)
  | Some (i, todo) =>
      (mkResponse StatusOK (OneTodo (toggle todo)), <[i := toggle todo]> todos)
  end.

(** [deleteTodo]: [slices.Delete(TODOS, i, i+1)] at the first match. *)
Fixpoint deleteTodoLoop (i : nat) (rest todos : list Todo) (id : string)
  : Response * list Todo :=
  match rest with
  | [] => (mkResponse StatusNotFound (Message "Todo not found"), todos)
  | todo :: rest' =>
      if String.eqb (ID todo) id
      then (mkResponse StatusOK (Message "Todo deleted"), delete i todos)
      else deleteTodoLoop (S i) rest' todos id
  end.

Definition deleteTodo (id : string) (todos : list Todo) : Response * list Todo :=
  deleteTodoLoop 0 todos todos id.

(** *** What the list endpoint selects *)

(** The reading of the list endpoint in which every parameter that is
    provided (not empty) is matched: the query against the item, the
    status against the text of the completed flag. *)
Definition FormatBool (b : bool) : string := if b then "true" else "false".

Definition satisfiesProvided (query status : string) (todo : Todo) : bool :=
  (String.eqb query "" || containsIgnoreCase (Item todo) query)
  && (String.eqb status "" || String.eqb status (FormatBool (Completed todo))).

(** The completion state a status parameter asks for, if any. *)
Definition statusFilter (status : string) : option bool :=
  if String.eqb status "true" then Some true
  else if String.eqb status "false" then Some false
  else None.

Definition selected (query status : string) (todo : Todo) : bool :=
  (String.eqb query "" || containsIgnoreCase (Item todo) query)
  && match statusFilter status with
     | Some completed => Bool.eqb (Completed todo) completed
     | None => true
     end.

End Handlers.

(** *** Requests served concurrently

    In [addTodo] the statement [TODOS = append(TODOS, newTodo)] first reads
    the package-level slice and later writes the longer slice back. *)
Inductive Flow :=
| Arrived (newTodo : option Todo)
| Appending (newTodo : Todo) (read : list Todo)
| Answered (response : Response).

Definition step (flow : Flow) (todos : list Todo) : Flow * list Todo :=
  match flow with
  | Arrived None => (Answered (mkResponse StatusBadRequest BindError), todos)
  | Arrived (Some todo) => (Appending todo todos, todos)
  | Appending todo read =>
      (Answered (mkResponse StatusCreated (OneTodo todo)), read ++ [todo])
  | Answered _ => (flow, todos)
  end.

Definition accept (requests : list (option Todo)) (todos : list Todo)
  : Server Flow (list Todo) :=
  mkServer (Arrived <$> requests) todos.

(** The todos the server has answered [201 Created] for. *)
Definition createdBy (flow : Flow) : option Todo :=
  match flow with
  | Answered (mkResponse _ (OneTodo todo)) => Some todo
  | _ => None
  end.

Definition created (srv : Server Flow (list Todo)) : list Todo :=
  omap createdBy (flows srv).

(** No concurrent flow disturbs the store: whatever the order of the
    steps, every todo answered as created is in the store. *)
Definition undisturbed (requests : list (option Todo)) (todos : list Todo) : Prop :=
  ∀ order todo,
    todo ∈ created (run step order (accept requests todos)) →
    todo ∈ store (run step order (accept requests todos)).

End Gin.

(** ** The Fiber book service *)

Module Fiber.

(** [type Book struct] *)
Record Book := mkBook {
  ID : Z;
  Title : string;
  Author : string;
  Genre : string;
  Pages : Z;
  Available : bool;
  PublishedYear : Z
}.

#[global] Instance Book_eq_dec : EqDecision Book.
Proof. solve_decision. Defined.

(** The two package-level variables, [library] and [nextID]. *)
Record State := mkState {
  library : list Book;
  nextID : Z
}.

Definition initial : State :=
  mkState
    [ mkBook 1 "The Go Programming Language" "Alan Donovan" "Technology" 380 true 2015;
      mkBook 2 "Clean Code" "Robert Martin" "Technology" 464 false 2008;
      mkBook 3 "The Pragmatic Programmer" "Dave Thomas" "Technology" 352 true 1999;
      mkBook 4 "Design Patterns" "Gang of Four" "Technology" 395 true 1994 ]
    5.

(** The [fiber.Map] (or book) a handler answers with. *)
Inductive Body :=
| BooksTotal (books : list Book) (total : Z)
| OneBook (book : Book)
| MessageBook (message : string) (book : Book)
| MessageOnly (message : string)
| ErrorOnly (error : string)
| ErrorDetails (error : string).

Record Response := mkResponse { status : nat; body : Body }.

Definition StatusOK := 200.
Definition StatusCreated := 201.
Definition StatusBadRequest := 400.
Definition StatusNotFound := 404.

Definition setID (book : Book) (id : Z) : Book :=
  mkBook id (Title book) (Author book) (Genre book) (Pages book)
         (Available book) (PublishedYear book).

Definition setAvailable (book : Book) (available : bool) : Book :=
  mkBook (ID book) (Title book) (Author book) (Genre book) (Pages book)
         available (PublishedYear book).

Section Handlers.
Context `{GoStrings}.

Definition containsIgnoreCase (str substr : string) : bool :=
  Contains (ToLower str) (ToLower substr).

Definition bookMatchesSearch (book : Book) (searchTerm : string) : bool :=
  containsIgnoreCase (Title book) searchTerm
  || containsIgnoreCase (Author book) searchTerm.

(** [findBookByID]: a copy of the first book whose ID is [id] and its
    index; [None] is the error. *)
Fixpoint findBookByID (books : list Book) (id : Z) : option (Book * nat) :=
  match books with
  | [] => None
  | book :: rest =>
      if (ID book =? id)%Z then Some (book, 0)
      else (λ '(found, i), (found, S i)) <$> findBookByID rest id
  end.

(** One iteration of the loop of [getAllBooks]: [false] is [continue]. *)
Definition keepBook (search genre availableStr : string) (book : Book) : bool :=
  if negb (String.eqb search "") && negb (bookMatchesSearch book search)
  then false
  else if negb (String.eqb genre "") && negb (EqualFold (Genre book) genre)
  then false
  else if negb (String.eqb availableStr "")
  then match ParseBool availableStr with
       | Some available =>
           if negb (Bool.eqb (Available book) available) then false else true
       | None => true
       end
  else true.

Definition getAllBooksLoop (search genre availableStr : string)
    (books : list Book) : list Book :=
  fold_left
    (λ filtered book,
       if keepBook search genre availableStr book
       then filtered ++ [book] else filtered)
    books [].

Definition getAllBooks (search genre availableStr : string) (s : State)
  : Response * State :=
  let filtered := getAllBooksLoop search genre availableStr (library s) in
  (mkResponse StatusOK (BooksTotal filtered (Z.of_nat (length filtered))), s).

(** [createBook]: [newBook] is [None] when [BodyParser] fails. *)
Definition createBook (newBook : option Book) (s : State) : Response * State :=
  match newBook with
  | None => (mkResponse StatusBadRequest (ErrorDetails "Cannot parse JSON"), s)
  | Some newBook =>
      if String.eqb (Title newBook) "" || String.eqb (Author newBook) ""
      then (mkResponse StatusBadRequest
              (ErrorOnly "Title and Author are required"), s)
      else
        let newBook := setID newBook (nextID s) in
        (mkResponse StatusCreated (MessageBook "Book added successfully" newBook),
         mkState (library s ++ [newBook]) (wrap (nextID s + 1)))
  end.

Definition getBook (idStr : string) (s : State) : Response * State :=
  match Atoi idStr with
  | None => (mkResponse StatusBadRequest (ErrorOnly "Invalid book ID"), s)
  | Some id =>
      match findBookByID (library s) id with
      | None => (mkResponse StatusNotFound (ErrorOnly "Book not found"), s)
      | Some (book, _) => (mkResponse StatusOK (OneBook book), s)
      end
  end.

(** [updateBook]: [updates] is [None] when [BodyParser] fails. *)
Definition updateBook (idStr : string) (updates : option Book) (s : State)
  : Response * State :=
  match Atoi idStr with
  | None => (mkResponse StatusBadRequest (ErrorOnly "Invalid book ID"), s)
  | Some id =>
      match findBookByID (library s) id with
      | None => (mkResponse StatusNotFound (ErrorOnly "Book not found"), s)
      | Some (_, index) =>
          match updates with
          | None =>
              (mkResponse StatusBadRequest (ErrorDetails "Cannot parse JSON"), s)
          | Some updates =>
              let updates := setID updates id in
              (mkResponse StatusOK
                 (MessageBook "Book updated successfully" updates),
               mkState (<[index := updates]> (library s)) (nextID s))
          end
      end
  end.

Definition toggleBookAvailability (idStr : string) (s : State)
  : Response * State :=
  match Atoi idStr with
  | None => (mkResponse StatusBadRequest (ErrorOnly "Invalid book ID"), s)
  | Some id =>
      match findBookByID (library s) id with
      | None => (mkResponse StatusNotFound (ErrorOnly "Book not found"), s)
      | Some (book, index) =>
          let books :=
            alter (λ b, setAvailable b (negb (Available book))) index (library s) in
          match books !! index with
          | Some updated =>
              (mkResponse StatusOK
                 (MessageBook "Book availability updated" updated),
               mkState books (nextID s))
          | None => (mkResponse StatusNotFound (ErrorOnly "Book not found"), s)
          end
      end
  end.

(** [deleteBook]: [slices.Delete(library, i, i+1)] at the first match. *)
Fixpoint deleteBookLoop (i : nat) (rest : list Book) (id : Z) (s : State)
  : Response * State :=
  match rest with
  | [] => (mkResponse StatusNotFound (ErrorOnly "Book not found"), s)
  | book :: rest' =>
      if (ID book =? id)%Z
      then (mkResponse StatusOK (MessageOnly "Book deleted successfully"),
            mkState (delete i (library s)) (nextID s))
      else deleteBookLoop (S i) rest' id s
  end.

Definition deleteBook (idStr : string) (s : State) : Response * State :=
  match Atoi idStr with
  | None => (mkResponse StatusBadRequest (ErrorOnly "Invalid book ID"), s)
  | Some id => deleteBookLoop 0 (library s) id s
  end.

(** The book routes of [main]. *)
Inductive Request :=
| GetAllBooks (search genre available : string)
| CreateBook (newBook : option Book)
| GetBook (id : string)
| UpdateBook (id : string) (updates : option Book)
| ToggleBookAvailability (id : string)
| DeleteBook (id : string).

Definition serve (request : Request) (s : State) : Response * State :=
  match request with
  | GetAllBooks search genre available => getAllBooks search genre available s
  | CreateBook newBook => createBook newBook s
  | GetBook id => getBook id s
  | UpdateBook id updates => updateBook id updates s
  | ToggleBookAvailability id => toggleBookAvailability id s
  | DeleteBook id => deleteBook id s
  end.

Definition serveAll (requests : list Request) (s : State) : State :=
  fold_left (λ s request, snd (serve request s)) requests s.

(** *** What the list endpoint selects *)

(** The availability an [available] parameter asks for, if any. *)
Definition availableFilter (availableStr : string) : option bool :=
  if String.eqb availableStr "" then None else ParseBool availableStr.

Definition selected (search genre availableStr : string) (book : Book) : bool :=
  (String.eqb search "" || bookMatchesSearch book search)
  && (String.eqb genre "" || EqualFold (Genre book) genre)
  && match availableFilter availableStr with
     | Some available => Bool.eqb (Available book) available
     | None => true
     end.

End Handlers.

(** *** Requests served concurrently

    [createBook] reads [nextID] for the new book, reads and writes it for
    [nextID++], then reads [library] and writes the longer slice back. *)
Inductive Flow :=
| Arrived (newBook : option Book)
| Numbered (newBook : Book)
| Incrementing (newBook : Book) (read : Z)
| Counted (newBook : Book)
| Appending (newBook : Book) (read : list Book)
| Answered (response : Response).

Definition step (flow : Flow) (s : State) : Flow * State :=
  match flow with
  | Arrived None =>
      (Answered (mkResponse StatusBadRequest (ErrorDetails "Cannot parse JSON")), s)
  | Arrived (Some newBook) =>
      if String.eqb (Title newBook) "" || String.eqb (Author newBook) ""
      then (Answered (mkResponse StatusBadRequest
                        (ErrorOnly "Title and Author are required")), s)
      else (Numbered (setID newBook (nextID s)), s)
  | Numbered newBook => (Incrementing newBook (nextID s), s)
  | Incrementing newBook read =>
      (Counted newBook, mkState (library s) (wrap (read + 1)))
  | Counted newBook => (Appending newBook (library s), s)
  | Appending newBook read =>
      (Answered (mkResponse StatusCreated
                   (MessageBook "Book added successfully" newBook)),
       mkState (read ++ [newBook]) (nextID s))
  | Answered _ => (flow, s)
  end.

Definition accept (requests : list (option Book)) (s : State)
  : Server Flow State :=
  mkServer (Arrived <$> requests) s.

(** *** The invariant of the identifiers *)

Definition distinctIDs (s : State) : Prop := NoDup (ID <$> library s).

Definition nextIDAbove (s : State) : Prop :=
  Forall (λ book, (ID book < nextID s)%Z) (library s).

Definition Inv (s : State) : Prop := distinctIDs s ∧ nextIDAbove s.

#[global] Instance Inv_dec s : Decision (Inv s).
Proof. unfold Inv, distinctIDs, nextIDAbove. apply _. Defined.

End Fiber.

(** ** The squares of the concurrency article

    [calculateSquare] and the three ways of running it over a slice, from
    the article on concurrency. Of each run the lines printed for the
    numbers are modelled; the heading, the elapsed time and the sleep of
    one second are left out. [Sprintf n result] stands for
    [fmt.Sprintf("%d² = %d", n, result)], the format [fmt.Printf] uses
    too. *)

Module Squares.

Definition calculateSquare (num : Z) : Z := wrap (num * num).

Definition line (Sprintf : Z → Z → string) (n : Z) : string :=
  Sprintf n (calculateSquare n).

Definition sequentialCalculation (Sprintf : Z → Z → string) (numbers : list Z)
  : list string :=
  fold_left
    (λ printed num, printed ++ [Sprintf num (calculateSquare num)])
    numbers [].

(** *** [concurrentWithChannels]

    The main goroutine starts one goroutine per number and then receives
    [len(numbers)] times from [results], a channel with a buffer of
    [len(numbers)] strings. A goroutine that was not started yet cannot
    step; a send blocks while the buffer is full and a receive while it is
    empty: a blocked goroutine stays where it is. *)
Module Channels.

Record Shared := mkShared {
  started : nat;
  results : list string;
  capacity : nat;
  printed : list string
}.

Inductive Goroutine :=
| Starting (more total : nat)
| Receiving (more : nat)
| Returned
| Worker (index : nat) (n : Z)
| Sent.

Definition step (Sprintf : Z → Z → string) (g : Goroutine) (c : Shared)
  : Goroutine * Shared :=
  match g with
  | Starting (S more) total =>
      (Starting more total,
       mkShared (S (started c)) (results c) (capacity c) (printed c))
  | Starting 0 total => (Receiving total, c)
  | Receiving (S more) =>
      match results c with
      | result :: rest =>
          (Receiving more,
           mkShared (started c) rest (capacity c) (printed c ++ [result]))
      | [] => (g, c)
      end
  | Receiving 0 => (Returned, c)
  | Returned => (g, c)
  | Worker index n =>
      if (index <? started c)%nat && (length (results c) <? capacity c)%nat
      then (Sent,
            mkShared (started c) (results c ++ [Sprintf n (calculateSquare n)])
                     (capacity c) (printed c))
      else (g, c)
  | Sent => (g, c)
  end.

Definition concurrentWithChannels (numbers : list Z) : Server Goroutine Shared :=
  mkServer (Starting (length numbers) (length numbers) :: imap Worker numbers)
           (mkShared 0 [] (length numbers) []).

(** The invariant of the run over [numbers]: what was printed, what is in
    the buffer and what is still to be sent are together the lines of the
    numbers; the main goroutine has received as often as it has printed. *)
Definition isWorker (total : nat) (g : Goroutine) : Prop :=
  match g with
  | Worker index _ => (index < total)%nat
  | Sent => True
  | _ => False
  end.

Definition pending (Sprintf : Z → Z → string) (g : Goroutine) : list string :=
  match g with
  | Worker _ n => [line Sprintf n]
  | _ => []
  end.

Definition mainOK (total : nat) (main : Goroutine) (c : Shared) : Prop :=
  match main with
  | Starting more total' =>
      total' = total ∧ printed c = [] ∧ (started c + more = total)%nat
  | Receiving more =>
      (length (printed c) + more = total)%nat ∧ started c = total
  | Returned => length (printed c) = total ∧ started c = total
  | _ => False
  end.

Definition Inv (Sprintf : Z → Z → string) (numbers : list Z)
    (srv : Server Goroutine Shared) : Prop :=
  ∃ main workers,
    flows srv = main :: workers
    ∧ Forall (isWorker (length numbers)) workers
    ∧ capacity (store srv) = length numbers
    ∧ mainOK (length numbers) main (store srv)
    ∧ printed (store srv) ++ results (store srv)
        ++ flat_map (pending Sprintf) workers
      ≡ₚ line Sprintf <$> numbers.

End Channels.

(** *** [concurrentCalculation]

    The main goroutine calls [wg.Add(1)] and starts a goroutine for each
    number, then blocks in [wg.Wait()] until the counter is zero. Each
    goroutine prints its line and, returning, runs the deferred
    [wg.Done()]. *)
Module WaitGroup.

Record Shared := mkShared {
  started : nat;
  counter : Z;
  printed : list string
}.

Inductive Goroutine :=
| Adding (more : nat)
| Waiting
| Passed
| Computing (index : nat) (n : Z)
| Deferred
| Finished.

Definition step (Sprintf : Z → Z → string) (g : Goroutine) (c : Shared)
  : Goroutine * Shared :=
  match g with
  | Adding (S more) =>
      (Adding more, mkShared (S (started c)) (counter c + 1) (printed c))
  | Adding 0 => (Waiting, c)
  | Waiting => if (counter c =? 0)%Z then (Passed, c) else (g, c)
  | Passed => (g, c)
  | Computing index n =>
      if (index <? started c)%nat
      then (Deferred,
            mkShared (started c) (counter c)
                     (printed c ++ [Sprintf n (calculateSquare n)]))
      else (g, c)
  | Deferred => (Finished, mkShared (started c) (counter c - 1) (printed c))
  | Finished => (g, c)
  end.

Definition concurrentCalculation (numbers : list Z) : Server Goroutine Shared :=
  mkServer (Adding (length numbers) :: imap Computing numbers)
           (mkShared 0 0 []).

(** The invariant of the run over [numbers]: what was printed and what is
    still to be printed are together the lines of the numbers; the counter
    and the calls of [wg.Add] still to come count the goroutines that have
    not run [wg.Done]. *)
Definition isWorker (g : Goroutine) : Prop :=
  match g with
  | Computing _ _ | Deferred | Finished => True
  | _ => False
  end.

Definition pending (Sprintf : Z → Z → string) (g : Goroutine) : list string :=
  match g with
  | Computing _ n => [line Sprintf n]
  | _ => []
  end.

Definition unfinished (g : Goroutine) : Z :=
  match g with
  | Computing _ _ | Deferred => 1
  | _ => 0
  end.

Definition toAdd (main : Goroutine) : option Z :=
  match main with
  | Adding more => Some (Z.of_nat more)
  | Waiting | Passed => Some 0%Z
  | _ => None
  end.

Definition Inv (Sprintf : Z → Z → string) (numbers : list Z)
    (srv : Server Goroutine Shared) : Prop :=
  ∃ main workers,
    flows srv = main :: workers
    ∧ Forall isWorker workers
    ∧ (∃ more, toAdd main = Some more
               ∧ (counter (store srv) + more
                  = foldr Z.add 0 (unfinished <$> workers))%Z)
    ∧ (main = Passed → counter (store srv) = 0%Z)
    ∧ printed (store srv) ++ flat_map (pending Sprintf) workers
      ≡ₚ line Sprintf <$> numbers.

End WaitGroup.

End Squares.

(** * The services on concrete requests *)

Section Running.
Local Existing Instance Ascii7.lib.

Example Contains_inside : Contains "read a book" "a bo" = true.
Proof. reflexivity. Qed.

Example Contains_empty : Contains "" "" = true.
Proof. reflexivity. Qed.

Example Contains_absent : Contains "read a book" "code" = false.
Proof. reflexivity. Qed.

Example Atoi_decimal :
  Atoi "42" = Some 42%Z ∧ Atoi "-7" = Some (-7)%Z ∧ Atoi "+3" = Some 3%Z
  ∧ Atoi "" = None ∧ Atoi "4a" = None ∧ Atoi "-" = None
  ∧ Atoi "9223372036854775807" = Some maxInt
  ∧ Atoi "9223372036854775808" = None.
Proof. repeat split; reflexivity. Qed.

Example getTodos_query_ignores_case :
  fst (Gin.getTodos "BOOK" "" Gin.TODOS)
  = Gin.mkResponse 200 (Gin.TodoList [Gin.mkTodo "2" "Read a book" false]).
Proof. reflexivity. Qed.

Example getTodos_status_true :
  fst (Gin.getTodos "" "true" Gin.TODOS) = Gin.mkResponse 200 (Gin.TodoList []).
Proof. reflexivity. Qed.

Example updateTodoStatus_found :
  Gin.updateTodoStatus "3" Gin.TODOS
  = (Gin.mkResponse 200 (Gin.OneTodo (Gin.mkTodo "3" "Write code" true)),
     [ Gin.mkTodo "1" "Buy groceries" false;
       Gin.mkTodo "2" "Read a book" false;
       Gin.mkTodo "3" "Write code" true;
       Gin.mkTodo "4" "Go for a walk" false ]).
Proof. reflexivity. Qed.

Example updateTodoStatus_missing :
  Gin.updateTodoStatus "9" Gin.TODOS
  = (Gin.mkResponse 404 (Gin.Message "Todo not found"), Gin.TODOS).
Proof. reflexivity. Qed.

Example deleteTodo_found :
  snd (Gin.deleteTodo "2" Gin.TODOS)
  = [ Gin.mkTodo "1" "Buy groceries" false;
      Gin.mkTodo "3" "Write code" false;
      Gin.mkTodo "4" "Go for a walk" false ].
Proof. reflexivity. Qed.

Example getAllBooks_available_false :
  fst (Fiber.getAllBooks "" "technology" "0" Fiber.initial)
  = Fiber.mkResponse 200
      (Fiber.BooksTotal
         [Fiber.mkBook 2 "Clean Code" "Robert Martin" "Technology" 464 false 2008]
         1).
Proof. reflexivity. Qed.

Example getAllBooks_search_author :
  fst (Fiber.getAllBooks "gang" "" "" Fiber.initial)
  = Fiber.mkResponse 200
      (Fiber.BooksTotal
         [Fiber.mkBook 4 "Design Patterns" "Gang of Four" "Technology" 395 true 1994]
         1).
Proof. reflexivity. Qed.

Example createBook_assigns_nextID :
  snd (Fiber.createBook
         (Some (Fiber.mkBook 77 "Dune" "Frank Herbert" "Fiction" 412 true 1965))
         Fiber.initial)
  = Fiber.mkState
      (Fiber.library Fiber.initial
         ++ [Fiber.mkBook 5 "Dune" "Frank Herbert" "Fiction" 412 true 1965])
      6.
Proof. reflexivity. Qed.

Example updateBook_keeps_path_id :
  Fiber.library
    (snd (Fiber.updateBook "2"
            (Some (Fiber.mkBook 99 "Clean Coder" "Robert Martin" "Technology" 256 true 2011))
            Fiber.initial))
  !! 1%nat
  = Some (Fiber.mkBook 2 "Clean Coder" "Robert Martin" "Technology" 256 true 2011).
Proof. reflexivity. Qed.

Example toggleBookAvailability_found :
  Fiber.library (snd (Fiber.toggleBookAvailability "2" Fiber.initial)) !! 1%nat
  = Some (Fiber.mkBook 2 "Clean Code" "Robert Martin" "Technology" 464 true 2008).
Proof. reflexivity. Qed.

Example deleteBook_found :
  Fiber.ID <$> Fiber.library (snd (Fiber.deleteBook "3" Fiber.initial))
  = [1; 2; 4]%Z.
Proof. reflexivity. Qed.

Example deleteBook_invalid_id :
  Fiber.deleteBook "three" Fiber.initial
  = (Fiber.mkResponse 400 (Fiber.ErrorOnly "Invalid book ID"), Fiber.initial).
Proof. reflexivity. Qed.

End Running.

(** * Properties of the todo service *)

Section GinFacts.
Import Gin.

Lemma toggle_toggle (todo : Todo) : toggle (toggle todo) = todo.
Proof. destruct todo as [i it c]. unfold toggle; simpl. by rewrite negb_involutive. Qed.

Lemma getTodoById_Some (todos : list Todo) (id : string) (i : nat) (todo : Todo) :
  getTodoById todos id = Some (i, todo) →
  todos !! i = Some todo ∧ ID todo = id.
Proof.
  revert i. induction todos as [|t rest IH]; intros i; simpl; [done|].
  destruct (String.eqb_spec (ID t) id) as [Heq|Hne].
  - intros [= <- <-]. done.
  - destruct (getTodoById rest id) as [[j found]|] eqn:Hrest; simpl; [|done].
    intros [= <- <-]. simpl. by apply IH.
Qed.

Lemma getTodoById_present (todos : list Todo) (id : string) :
  id ∈ ID <$> todos → is_Some (getTodoById todos id).
Proof.
  induction todos as [|t rest IH]; simpl.
  - by intros ?%elem_of_nil.
  - intros Hin. destruct (String.eqb_spec (ID t) id) as [Heq|Hne]; [by eexists|].
    apply elem_of_cons in Hin as [Hhd|Htl]; [by subst|].
    destruct (IH Htl) as [[j found] ->]. by eexists.
Qed.

(** The pointer handed out by [getTodoById] still finds the same place
    after the todo there was toggled: the ID did not change. *)
Lemma getTodoById_toggled (todos : list Todo) (id : string) (i : nat) (todo : Todo) :
  getTodoById todos id = Some (i, todo) →
  getTodoById (<[i := toggle todo]> todos) id = Some (i, toggle todo).
Proof.
  revert i. induction todos as [|t rest IH]; intros i; simpl; [done|].
  destruct (String.eqb_spec (ID t) id) as [Heq|Hne].
  - intros [= <- <-]. simpl. by rewrite Heq, String.eqb_refl.
  - destruct (getTodoById rest id) as [[j found]|] eqn:Hrest; simpl; [|done].
    intros [= <- <-]. simpl.
    destruct (String.eqb_spec (ID t) id) as [|_]; [done|].
    by rewrite (IH j eq_refl).
Qed.

Lemma getTodosLoop_from `{GoStrings} (query status : string)
    (todos filtered : list Todo) :
  fold_left
    (λ filtered todo,
       if keepTodo query status todo then filtered ++ [todo] else filtered)
    todos filtered
  = filtered ++ List.filter (keepTodo query status) todos.
Proof.
  revert filtered. induction todos as [|t rest IH]; intros filtered; simpl.
  - by rewrite app_nil_r.
  - rewrite IH. destruct (keepTodo query status t); [|done].
    by rewrite <- app_assoc.
Qed.

Lemma keepTodo_selected `{GoStrings} (query status : string) (todo : Todo) :
  keepTodo query status todo = selected query status todo.
Proof.
  unfold keepTodo, selected, statusFilter.
  destruct (String.eqb query ""), (containsIgnoreCase (Item todo) query); simpl;
    try done;
    destruct (String.eqb_spec status "true") as [->|_]; simpl;
    destruct (Completed todo); simpl; try done;
    by destruct (String.eqb status "false").
Qed.

End GinFacts.

(** * Properties of the book service *)

Section FiberFacts.
Import Fiber.

Lemma getAllBooksLoop_from `{GoStrings} (search genre availableStr : string)
    (books filtered : list Book) :
  fold_left
    (λ filtered book,
       if keepBook search genre availableStr book
       then filtered ++ [book] else filtered)
    books filtered
  = filtered ++ List.filter (keepBook search genre availableStr) books.
Proof.
  revert filtered. induction books as [|b rest IH]; intros filtered; simpl.
  - by rewrite app_nil_r.
  - rewrite IH. destruct (keepBook search genre availableStr b); [|done].
    by rewrite <- app_assoc.
Qed.

Lemma keepBook_selected `{GoStrings} (search genre availableStr : string)
    (book : Book) :
  keepBook search genre availableStr book
  = selected search genre availableStr book.
Proof.
  unfold keepBook, selected, availableFilter.
  destruct (String.eqb search ""), (bookMatchesSearch book search); simpl;
    try done;
    destruct (String.eqb genre ""), (EqualFold (Genre book) genre); simpl;
    try done;
    destruct (String.eqb availableStr ""); simpl; try done;
    destruct (ParseBool availableStr) as [available|]; try done;
    by destruct (Available book), available.
Qed.

End FiberFacts.

(** * The list endpoints *)

(** C8, as the code has it. Both list endpoints are linear-scan filters
    that leave the store alone: [getTodos] answers with exactly the todos
    of the store, in stored order, whose item contains the query (letter
    case ignored) when a query is given and whose completed flag is the
    one asked for when the status is "true" or "false"; [getAllBooks]
    answers with exactly the books, in stored order, whose title or author
    contains the search term when one is given, whose genre equals the
    given genre under case folding, and whose availability is the one the
    [available] parameter parses to, together with their number. Any other
    status, and an [available] value that does not parse as a boolean,
    filters nothing. *)
Theorem list_endpoints_are_filters `{GoStrings} :
  (∀ (query status : string) (todos : list Gin.Todo),
     Gin.getTodos query status todos
     = (Gin.mkResponse Gin.StatusOK
          (Gin.TodoList (List.filter (Gin.selected query status) todos)),
        todos))
  ∧ (∀ (search genre available : string) (s : Fiber.State),
       let books := List.filter (Fiber.selected search genre available)
                                (Fiber.library s) in
       Fiber.getAllBooks search genre available s
       = (Fiber.mkResponse Fiber.StatusOK
            (Fiber.BooksTotal books (Z.of_nat (length books))),
          s)).
Proof.
  split.
  - intros query status todos. unfold Gin.getTodos, Gin.getTodosLoop.
    rewrite getTodosLoop_from. simpl. do 3 f_equal.
    apply List.filter_ext. intros todo. apply keepTodo_selected.
  - intros search genre available s books. unfold Fiber.getAllBooks, Fiber.getAllBooksLoop.
    rewrite getAllBooksLoop_from. simpl.
    assert (List.filter (Fiber.keepBook search genre available) (Fiber.library s)
            = books) as ->; [|done].
    apply List.filter_ext. intros book. apply keepBook_selected.
Qed.

(** C8, as the claim words it, fails: the status parameter "yes" is
    provided, no todo has that status, and [getTodos] still answers with
    the whole store, completed and open todos alike. *)
Lemma getTodos_unmatched_status_returns_all :
  let todos := [ Gin.mkTodo "1" "Buy groceries" false;
                 Gin.mkTodo "2" "Read a book" true ] in
  "yes" ≠ ""
  ∧ List.filter (Gin.satisfiesProvided (H := Ascii7.lib) "" "yes") todos = []
  ∧ fst (Gin.getTodos (H := Ascii7.lib) "" "yes" todos)
    = Gin.mkResponse Gin.StatusOK (Gin.TodoList todos).
Proof. split; [done|]. split; reflexivity. Qed.

(** The book endpoint likewise: "maybe" does not parse as a boolean, and
    [getAllBooks] answers with all four books, the unavailable one too. *)
Lemma getAllBooks_unparsed_available_returns_all :
  fst (Fiber.getAllBooks (H := Ascii7.lib) "" "" "maybe" Fiber.initial)
  = Fiber.mkResponse Fiber.StatusOK
      (Fiber.BooksTotal (Fiber.library Fiber.initial) 4).
Proof. reflexivity. Qed.

(** * Toggling a todo *)

(** C10. For an ID present in the store, [updateTodoStatus] rewrites one
    place of the store, that of the first todo with this ID, to the same
    todo with only its completed flag negated; a second call with the same
    ID gives back the store of before the first. *)
Theorem updateTodoStatus_twice (id : string) (todos : list Gin.Todo) :
  id ∈ Gin.ID <$> todos →
  ∃ (i : nat) (todo : Gin.Todo),
    todos !! i = Some todo ∧ Gin.ID todo = id
    ∧ snd (Gin.updateTodoStatus id todos)
      = <[i := Gin.mkTodo (Gin.ID todo) (Gin.Item todo)
                          (negb (Gin.Completed todo))]> todos
    ∧ snd (Gin.updateTodoStatus id (snd (Gin.updateTodoStatus id todos)))
      = todos.
Proof.
  intros Hin. destruct (getTodoById_present todos id Hin) as [[i todo] Hfind].
  destruct (getTodoById_Some _ _ _ _ Hfind) as [Hat Hid].
  exists i, todo. split; [done|]. split; [done|].
  assert (snd (Gin.updateTodoStatus id todos) = <[i := Gin.toggle todo]> todos)
    as Hfirst by (unfold Gin.updateTodoStatus; by rewrite Hfind).
  rewrite Hfirst. split; [done|].
  unfold Gin.updateTodoStatus.
  rewrite (getTodoById_toggled _ _ _ _ Hfind). simpl.
  rewrite list_insert_insert_eq, toggle_toggle. by apply list_insert_id.
Qed.

(** The theorem at the initial store, for the todo "Read a book". *)
Lemma updateTodoStatus_twice_witness :
  "2" ∈ Gin.ID <$> Gin.TODOS
  ∧ ∃ (i : nat) (todo : Gin.Todo),
      Gin.TODOS !! i = Some todo ∧ Gin.ID todo = "2"
      ∧ snd (Gin.updateTodoStatus "2" Gin.TODOS)
        = <[i := Gin.mkTodo (Gin.ID todo) (Gin.Item todo)
                            (negb (Gin.Completed todo))]> Gin.TODOS
      ∧ snd (Gin.updateTodoStatus "2" (snd (Gin.updateTodoStatus "2" Gin.TODOS)))
        = Gin.TODOS.
Proof.
  assert ("2" ∈ Gin.ID <$> Gin.TODOS) as Hin.
  { simpl. apply elem_of_cons. right. apply elem_of_cons. by left. }
  split; [exact Hin|]. exact (updateTodoStatus_twice "2" Gin.TODOS Hin).
Defined.

(** * The identifiers of the books *)

Section BookIdentifiers.
Import Fiber.
Local Open Scope Z_scope.

Lemma wrap_in_range (z : Z) : minInt ≤ z ≤ maxInt → wrap z = z.
Proof.
  unfold wrap, minInt, maxInt. intros Hz.
  rewrite Z.mod_small; lia.
Qed.

Lemma wrap_wrap_succ (z : Z) : wrap (wrap z + 1) = wrap (z + 1).
Proof.
  unfold wrap. f_equal.
  replace ((z - minInt) `mod` 2 ^ 64 + minInt + 1 - minInt)
    with ((z - minInt) `mod` 2 ^ 64 + 1) by lia.
  rewrite Zplus_mod_idemp_l. f_equal. lia.
Qed.

Lemma findBookByID_Some (books : list Book) (id : Z) (book : Book) (i : nat) :
  findBookByID books id = Some (book, i) →
  books !! i = Some book ∧ ID book = id.
Proof.
  revert i. induction books as [|b rest IH]; intros i; simpl; [done|].
  destruct (Z.eqb_spec (ID b) id) as [Heq|Hne].
  - intros [= <- <-]. done.
  - destruct (findBookByID rest id) as [[found j]|] eqn:Hrest; simpl; [|done].
    intros [= <- <-]. simpl. by apply IH.
Qed.

(** The invariant only looks at the identifiers: it survives every
    change that keeps [nextID] and leaves a sublist of them. *)
Lemma Inv_sublist (s s' : State) :
  (ID <$> library s') `sublist_of` (ID <$> library s) →
  nextID s' = nextID s →
  Inv s → Inv s'.
Proof.
  intros Hsub Hnext [Hdistinct Habove]. split.
  - unfold distinctIDs. by eapply sublist_NoDup.
  - unfold nextIDAbove in *. rewrite Hnext.
    apply (Forall_fmap ID (λ i, i < nextID s)).
    apply (Forall_fmap ID (λ i, i < nextID s)) in Habove.
    rewrite Forall_forall in *. intros i Hi.
    apply Habove. by eapply elem_of_sublist.
Qed.

Lemma createBook_effect (newBook : Book) (s : State) :
  Title newBook ≠ "" → Author newBook ≠ "" →
  snd (createBook (Some newBook) s)
  = mkState (library s ++ [setID newBook (nextID s)]) (wrap (nextID s + 1)).
Proof.
  intros Htitle Hauthor. unfold createBook.
  destruct (String.eqb_spec (Title newBook) "") as [|_]; [done|].
  by destruct (String.eqb_spec (Author newBook) "") as [|_].
Qed.

Lemma createBook_cases (newBook : option Book) (s : State) :
  snd (createBook newBook s) = s
  ∨ ∃ book, snd (createBook newBook s)
            = mkState (library s ++ [setID book (nextID s)]) (wrap (nextID s + 1)).
Proof.
  unfold createBook. destruct newBook as [book|]; [|by left].
  destruct (String.eqb (Title book) "" || String.eqb (Author book) "");
    [by left|]. right. by exists book.
Qed.

Lemma Inv_append (book : Book) (s : State) :
  nextID s < maxInt → minInt ≤ nextID s →
  Inv s →
  Inv (mkState (library s ++ [setID book (nextID s)]) (wrap (nextID s + 1))).
Proof.
  intros Hmax Hmin [Hdistinct Habove].
  rewrite wrap_in_range by lia. split.
  - unfold distinctIDs in *. simpl. rewrite fmap_app. simpl.
    apply NoDup_app. split; [done|]. split; [|apply NoDup_singleton].
    intros i Hi ->%list_elem_of_singleton.
    apply list_elem_of_fmap in Hi as (b & Hb & Hin).
    unfold nextIDAbove in Habove. rewrite Forall_forall in Habove.
    specialize (Habove b Hin). lia.
  - unfold nextIDAbove in *. simpl. apply Forall_app. split.
    + eapply Forall_impl; [exact Habove|]. simpl. intros. lia.
    + apply Forall_singleton. simpl. lia.
Qed.

Lemma updateBook_ids `{GoStrings} (idStr : string) (updates : option Book)
    (s : State) :
  ID <$> library (snd (updateBook idStr updates s)) = ID <$> library s
  ∧ nextID (snd (updateBook idStr updates s)) = nextID s.
Proof.
  unfold updateBook. destruct (Atoi idStr) as [id|]; [|done].
  destruct (findBookByID (library s) id) as [[book index]|] eqn:Hfind; [|done].
  destruct updates as [updates|]; [|done]. simpl. split; [|done].
  apply findBookByID_Some in Hfind as [Hat Hid].
  rewrite list_fmap_insert. simpl. apply list_insert_id.
  rewrite list_lookup_fmap, Hat. simpl. by rewrite Hid.
Qed.

Lemma toggleBookAvailability_ids `{GoStrings} (idStr : string) (s : State) :
  ID <$> library (snd (toggleBookAvailability idStr s)) = ID <$> library s
  ∧ nextID (snd (toggleBookAvailability idStr s)) = nextID s.
Proof.
  unfold toggleBookAvailability. destruct (Atoi idStr) as [id|]; [|done].
  destruct (findBookByID (library s) id) as [[book index]|]; [|done].
  destruct (alter _ index (library s) !! index) eqn:Hat; [|done].
  simpl. split; [|done].
  rewrite (list_fmap_alter ID _ (λ i, i)).
  - by apply list_alter_id.
  - by apply Forall_true.
Qed.

Lemma deleteBookLoop_sublist (i : nat) (rest : list Book) (id : Z) (s : State) :
  library (snd (deleteBookLoop i rest id s)) `sublist_of` library s
  ∧ nextID (snd (deleteBookLoop i rest id s)) = nextID s.
Proof.
  revert i. induction rest as [|book rest IH]; intros i; simpl; [done|].
  destruct (ID book =? id); [|apply IH]. simpl. split; [|done].
  apply sublist_delete.
Qed.

Lemma deleteBook_sublist `{GoStrings} (idStr : string) (s : State) :
  library (snd (deleteBook idStr s)) `sublist_of` library s
  ∧ nextID (snd (deleteBook idStr s)) = nextID s.
Proof.
  unfold deleteBook. destruct (Atoi idStr) as [id|]; [|done].
  apply deleteBookLoop_sublist.
Qed.

Lemma getBook_reads `{GoStrings} (idStr : string) (s : State) :
  snd (getBook idStr s) = s.
Proof.
  unfold getBook. destruct (Atoi idStr) as [id|]; [|done].
  by destruct (findBookByID (library s) id) as [[book index]|].
Qed.

(** Every route keeps the invariant while the counter has room, and
    moves the counter by one step at most. *)
Lemma serve_Inv `{GoStrings} (request : Request) (s : State) :
  Inv s → minInt ≤ nextID s < maxInt →
  Inv (snd (serve request s))
  ∧ nextID s ≤ nextID (snd (serve request s)) ≤ nextID s + 1.
Proof.
  intros HInv [Hmin Hmax]. destruct request as [search genre available
    |newBook|id|id updates|id|id]; simpl.
  - split; [done|lia].
  - destruct (createBook_cases newBook s) as [->|[book ->]]; [split; [done|lia]|].
    split; [by apply Inv_append|]. simpl. rewrite wrap_in_range; lia.
  - rewrite getBook_reads. split; [done|lia].
  - destruct (updateBook_ids id updates s) as [Hids Hnext].
    split; [|lia]. eapply Inv_sublist; [|exact Hnext|exact HInv]. by rewrite Hids.
  - destruct (toggleBookAvailability_ids id s) as [Hids Hnext].
    split; [|lia]. eapply Inv_sublist; [|exact Hnext|exact HInv]. by rewrite Hids.
  - destruct (deleteBook_sublist id s) as [Hsub Hnext].
    split; [|lia]. eapply Inv_sublist; [|exact Hnext|exact HInv].
    by apply fmap_sublist.
Qed.

Lemma initial_Inv : Inv initial.
Proof. apply (bool_decide_unpack _). by vm_compute. Qed.

(** The service keeps its identifiers distinct from its first request
    on, for as many requests as the counter has room for. *)
Lemma serveAll_Inv `{GoStrings} (requests : list Request) (s : State) :
  Inv s → minInt ≤ nextID s →
  nextID s + Z.of_nat (length requests) ≤ maxInt →
  Inv (serveAll requests s).
Proof.
  revert s. induction requests as [|request requests IH]; intros s HInv Hmin Hroom;
    simpl in *; [done|].
  destruct (serve_Inv request s HInv ltac:(lia)) as [HInv' Hnext].
  apply IH; [done|lia|lia].
Qed.

End BookIdentifiers.

Section BookIdentifiersWrap.
Import Fiber.
Local Open Scope Z_scope.

(** After [n] books were created from the initial store the counter is
    [5 + n], wrapped into [int], and the first four books are still
    there. *)
Lemma create_iter (book : Book) (n : N) :
  Title book ≠ "" → Author book ≠ "" →
  nextID (N.iter n (λ s, snd (createBook (Some book) s)) initial)
  = wrap (5 + Z.of_N n)
  ∧ ∃ rest, library (N.iter n (λ s, snd (createBook (Some book) s)) initial)
            = library initial ++ rest.
Proof.
  intros Htitle Hauthor.
  apply (N.iter_ind State (λ s, snd (createBook (Some book) s)) initial
           (λ n s, nextID s = wrap (5 + Z.of_N n)
                   ∧ ∃ rest, library s = library initial ++ rest)).
  - split; [|by exists []; rewrite app_nil_r].
    change (nextID initial) with 5. rewrite wrap_in_range; [done|].
    unfold minInt, maxInt. lia.
  - intros m s [Hnext [rest Hlib]].
    rewrite (createBook_effect book s Htitle Hauthor).
    cbn [nextID library]. split.
    + rewrite Hnext, wrap_wrap_succ. f_equal. lia.
    + exists (rest ++ [setID book (nextID s)]). by rewrite Hlib, app_assoc.
Qed.

End BookIdentifiersWrap.

(** C9, as the code has it. While [nextID] is below the largest [int],
    every request, served alone, leaves the identifiers of the library
    pairwise distinct and below [nextID], and so does every sequence of
    requests that the counter has room for: [createBook] stores the new
    book under the current [nextID], whatever ID the client sent, and then
    adds one to the counter; [updateBook] and [toggleBookAvailability]
    leave the list of identifiers as it was; [deleteBook] leaves a sublist
    of the library. *)
Theorem book_ids_distinct_below_maxInt `{GoStrings} (s : Fiber.State) :
  Fiber.Inv s → (minInt ≤ Fiber.nextID s < maxInt)%Z →
  (∀ request : Fiber.Request, Fiber.Inv (snd (Fiber.serve request s)))
  ∧ (∀ requests : list Fiber.Request,
       (Fiber.nextID s + Z.of_nat (length requests) ≤ maxInt)%Z →
       Fiber.Inv (Fiber.serveAll requests s))
  ∧ (∀ newBook : Fiber.Book,
       Fiber.Title newBook ≠ "" → Fiber.Author newBook ≠ "" →
       snd (Fiber.createBook (Some newBook) s)
       = Fiber.mkState
           (Fiber.library s ++ [Fiber.setID newBook (Fiber.nextID s)])
           (Fiber.nextID s + 1))
  ∧ (∀ (id : string) (updates : option Fiber.Book),
       Fiber.ID <$> Fiber.library (snd (Fiber.updateBook id updates s))
       = Fiber.ID <$> Fiber.library s)
  ∧ (∀ id : string,
       Fiber.ID <$> Fiber.library (snd (Fiber.toggleBookAvailability id s))
       = Fiber.ID <$> Fiber.library s)
  ∧ (∀ id : string,
       Fiber.library (snd (Fiber.deleteBook id s)) `sublist_of` Fiber.library s).
Proof.
  intros HInv Hroom. split; [|split; [|split; [|split; [|split]]]].
  - intros request. by apply serve_Inv.
  - intros requests Hfits. apply serveAll_Inv; [done|lia|done].
  - intros newBook Htitle Hauthor. rewrite createBook_effect by done.
    rewrite wrap_in_range; [done|]. unfold maxInt, minInt in *. lia.
  - intros id updates. apply updateBook_ids.
  - intros id. apply toggleBookAvailability_ids.
  - intros id. apply deleteBook_sublist.
Qed.

(** The theorem at the initial library, where [nextID] is 5. *)
Lemma book_ids_distinct_below_maxInt_witness :
  Fiber.Inv Fiber.initial
  ∧ (minInt ≤ Fiber.nextID Fiber.initial < maxInt)%Z
  ∧ (∀ request : Fiber.Request,
       Fiber.Inv (snd (Fiber.serve (H := Ascii7.lib) request Fiber.initial)))
  ∧ (∀ requests : list Fiber.Request,
       (Fiber.nextID Fiber.initial + Z.of_nat (length requests) ≤ maxInt)%Z →
       Fiber.Inv (Fiber.serveAll (H := Ascii7.lib) requests Fiber.initial))
  ∧ (∀ newBook : Fiber.Book,
       Fiber.Title newBook ≠ "" → Fiber.Author newBook ≠ "" →
       snd (Fiber.createBook (Some newBook) Fiber.initial)
       = Fiber.mkState
           (Fiber.library Fiber.initial
              ++ [Fiber.setID newBook (Fiber.nextID Fiber.initial)])
           (Fiber.nextID Fiber.initial + 1))
  ∧ (∀ (id : string) (updates : option Fiber.Book),
       Fiber.ID <$> Fiber.library
                      (snd (Fiber.updateBook (H := Ascii7.lib) id updates Fiber.initial))
       = Fiber.ID <$> Fiber.library Fiber.initial)
  ∧ (∀ id : string,
       Fiber.ID <$> Fiber.library
                      (snd (Fiber.toggleBookAvailability (H := Ascii7.lib) id Fiber.initial))
       = Fiber.ID <$> Fiber.library Fiber.initial)
  ∧ (∀ id : string,
       Fiber.library (snd (Fiber.deleteBook (H := Ascii7.lib) id Fiber.initial))
       `sublist_of` Fiber.library Fiber.initial).
Proof.
  assert (minInt ≤ Fiber.nextID Fiber.initial < maxInt)%Z as Hroom
    by (unfold minInt, maxInt; simpl; lia).
  split; [exact initial_Inv|]. split; [exact Hroom|].
  exact (book_ids_distinct_below_maxInt (H := Ascii7.lib)
           Fiber.initial initial_Inv Hroom).
Defined.

(** C9, as the claim words it, fails where the counter wraps around. With
    [nextID] at the largest [int] the invariant holds, and creating a book
    moves [nextID] to the smallest [int], below every stored ID. From the
    initial store, after 2^64 - 4 books were created, [nextID] is 1 again,
    and the next book created gets the ID of the first book of the
    library. *)
Lemma book_ids_collide_after_wraparound :
  let book := Fiber.mkBook 0 "Dune" "Frank Herbert" "Fiction" 412 true 1965 in
  let create := λ s, snd (Fiber.createBook (Some book) s) in
  let full := Fiber.mkState (Fiber.library Fiber.initial) maxInt in
  (Fiber.Inv full
   ∧ Fiber.nextID (create full) = minInt
   ∧ ¬ Fiber.Inv (create full))
  ∧ (let s := N.iter (2 ^ 64 - 4) create Fiber.initial in
     Fiber.nextID s = 1%Z
     ∧ ¬ NoDup (Fiber.ID <$> Fiber.library (create s))).
Proof.
  intros book create full. split.
  - split; [apply (bool_decide_unpack _); by vm_compute|].
    split; [by vm_compute|].
    intros HInv. apply (bool_decide_pack _) in HInv. by vm_compute in HInv.
  - assert (Fiber.Title book ≠ "") as Htitle by done.
    assert (Fiber.Author book ≠ "") as Hauthor by done.
    destruct (create_iter book (2 ^ 64 - 4) Htitle Hauthor) as [Hnext [rest Hlib]].
    fold create in Hnext, Hlib.
    generalize dependent (N.iter (2 ^ 64 - 4) create Fiber.initial).
    intros s Hnext Hlib.
    assert (Fiber.nextID s = 1%Z) as Hone by (rewrite Hnext; by vm_compute).
    split; [exact Hone|].
    unfold create. rewrite (createBook_effect book s Htitle Hauthor).
    cbn [Fiber.library]. rewrite Hlib, Hone, !fmap_app. simpl.
    intros Hdup. apply NoDup_cons in Hdup as [Hfresh _].
    apply Hfresh. rewrite !elem_of_cons, !elem_of_app, elem_of_cons.
    do 3 right. right. by left.
Qed.

(** * Requests served at the same time *)

Section GoroutinesFacts.
Context {Flow State : Type} (step : Flow → State → Flow * State).

Lemma insert_middle {A} (before after : list A) (x y : A) :
  <[length before := y]> (before ++ x :: after) = before ++ y :: after.
Proof. rewrite insert_app_r_alt by done. by rewrite Nat.sub_diag. Qed.

Lemma schedule_middle (before after : list Flow) (flow : Flow) (s : State) :
  schedule step (mkServer (before ++ flow :: after) s) (length before)
  = mkServer (before ++ fst (step flow s) :: after) (snd (step flow s)).
Proof.
  unfold schedule. cbn [flows store].
  rewrite list_lookup_middle by done. by rewrite insert_middle.
Qed.

Lemma run_app (order1 order2 : list nat) (srv : Server Flow State) :
  run step (order1 ++ order2) srv = run step order2 (run step order1 srv).
Proof. apply fold_left_app. Qed.

Lemma run_replicate (k i : nat) (srv : Server Flow State) :
  run step (replicate k i) srv = Nat.iter k (λ srv, schedule step srv i) srv.
Proof.
  revert srv. induction k as [|k IH]; intros srv; [done|].
  cbn [replicate]. unfold run in *. cbn [fold_left].
  rewrite IH. symmetry.
  apply (Nat.iter_succ_r k (λ srv, schedule step srv i) srv).
Qed.

(** A flow that gets [k] turns in a row runs as if it were alone. *)
Lemma run_alone (k : nat) (before after : list Flow) (flow : Flow) (s : State) :
  run step (replicate k (length before)) (mkServer (before ++ flow :: after) s)
  = mkServer (before ++ fst (alone step k flow s) :: after)
             (snd (alone step k flow s)).
Proof.
  rewrite run_replicate. unfold alone.
  induction k as [|k IH]; [done|].
  rewrite !Nat.iter_succ, IH. apply schedule_middle.
Qed.

Context {Request Response : Type}.
Variable arrive : Request → Flow.
Variable answered : Response → Flow.
Variable handler : Request → State → Response * State.
Variable k : nat.
Hypothesis alone_handler : ∀ request s,
  alone step k (arrive request) s
  = (answered (fst (handler request s)), snd (handler request s)).

Lemma oneAtATime_from (before : list Flow) (requests : list Request) (s : State) :
  run step (flat_map (replicate k) (seq (length before) (length requests)))
      (mkServer (before ++ (arrive <$> requests)) s)
  = mkServer (before ++ (answered <$> fst (serveInTurn handler requests s)))
             (snd (serveInTurn handler requests s)).
Proof.
  revert before s.
  induction requests as [|request requests IH]; intros before s; [done|].
  cbn [length seq flat_map fmap list_fmap serveInTurn].
  rewrite run_app, run_alone, alone_handler. cbn [fst snd].
  destruct (handler request s) as [response s1]. cbn [fst snd].
  destruct (serveInTurn handler requests s1) as [responses s2] eqn:Hrest.
  cbn [fst snd fmap list_fmap].
  assert (∀ after, before ++ answered response :: after
                   = (before ++ [answered response]) ++ after) as Hmove
    by (intros after; by rewrite <- app_assoc).
  rewrite (Hmove (arrive <$> requests)), (Hmove (answered <$> responses)).
  replace (S (length before)) with (length (before ++ [answered response]))
    by (rewrite length_app; simpl; lia).
  rewrite IH. by rewrite Hrest.
Qed.

(** Requests served one at a time are answered, and leave the store, as
    the handler called on one after the other does. *)
Lemma oneAtATime_serveInTurn (requests : list Request) (s : State) :
  run step (oneAtATime k (length requests)) (mkServer (arrive <$> requests) s)
  = mkServer (answered <$> fst (serveInTurn handler requests s))
             (snd (serveInTurn handler requests s)).
Proof. apply (oneAtATime_from [] requests s). Qed.

End GoroutinesFacts.

Section Flows.

Lemma addTodo_alone (newTodo : option Gin.Todo) (todos : list Gin.Todo) :
  alone Gin.step 2 (Gin.Arrived newTodo) todos
  = (Gin.Answered (fst (Gin.addTodo newTodo todos)),
     snd (Gin.addTodo newTodo todos)).
Proof. by destruct newTodo. Qed.

Lemma createBook_alone (newBook : option Fiber.Book) (s : Fiber.State) :
  alone Fiber.step 5 (Fiber.Arrived newBook) s
  = (Fiber.Answered (fst (Fiber.createBook newBook s)),
     snd (Fiber.createBook newBook s)).
Proof.
  destruct newBook as [book|]; [|done].
  unfold alone, Fiber.createBook. cbn [Nat.iter nat_rect fst snd Fiber.step].
  by destruct (String.eqb (Fiber.Title book) "" || String.eqb (Fiber.Author book) "").
Qed.

Lemma addTodo_inTurn (requests : list (option Gin.Todo)) (todos : list Gin.Todo) :
  snd (serveInTurn Gin.addTodo requests todos) = todos ++ omap id requests
  ∧ omap Gin.createdBy
      (Gin.Answered <$> fst (serveInTurn Gin.addTodo requests todos))
    = omap id requests.
Proof.
  revert todos. induction requests as [|newTodo requests IH]; intros todos.
  - split; [by rewrite app_nil_r|done].
  - cbn [serveInTurn].
    destruct (Gin.addTodo newTodo todos) as [response todos1] eqn:Hadd.
    destruct (IH todos1) as [Hstore Hcreated].
    destruct (serveInTurn Gin.addTodo requests todos1) as [responses todos2].
    cbn [fst snd] in *. rewrite Hstore.
    destruct newTodo as [todo|]; injection Hadd as <- <-;
      cbn [fmap list_fmap omap list_omap Gin.createdBy id].
    + fold (fmap (M := list) Gin.Answered responses).
      rewrite Hcreated. split; [|done]. by rewrite <- app_assoc.
    + fold (fmap (M := list) Gin.Answered responses). by rewrite Hcreated.
Qed.

End Flows.

(** C4, as the code has it. The stores are package-level variables that
    the handlers read and write with no synchronisation. When the requests
    are served one at a time, each to its end before the next starts, they
    are answered, and leave the store, exactly as the handler called on
    one request after the other does; for [addTodo] the store ends as the
    old store followed by exactly the todos answered as created, in the
    order of service, and for [createBook] the library and [nextID] end as
    the successive calls leave them. *)
Theorem stores_served_one_at_a_time :
  (∀ (requests : list (option Gin.Todo)) (todos : list Gin.Todo),
     let srv := run Gin.step (oneAtATime 2 (length requests))
                    (Gin.accept requests todos) in
     srv = mkServer (Gin.Answered <$> fst (serveInTurn Gin.addTodo requests todos))
                    (snd (serveInTurn Gin.addTodo requests todos))
     ∧ store srv = todos ++ Gin.created srv
     ∧ Gin.created srv = omap id requests)
  ∧ (∀ (requests : list (option Fiber.Book)) (s : Fiber.State),
       run Fiber.step (oneAtATime 5 (length requests)) (Fiber.accept requests s)
       = mkServer
           (Fiber.Answered <$> fst (serveInTurn Fiber.createBook requests s))
           (snd (serveInTurn Fiber.createBook requests s))).
Proof.
  split.
  - intros requests todos. cbv zeta. unfold Gin.accept.
    rewrite (oneAtATime_serveInTurn Gin.step Gin.Arrived Gin.Answered
               Gin.addTodo 2 addTodo_alone).
    unfold Gin.created. cbn [flows store].
    destruct (addTodo_inTurn requests todos) as [-> ->]. done.
  - intros requests s. unfold Fiber.accept.
    apply (oneAtATime_serveInTurn Fiber.step Fiber.Arrived Fiber.Answered
             Fiber.createBook 5 createBook_alone).
Qed.

(** C4, as the claim words it, fails. Two [addTodo] requests are served at
    the same time from the initial store: both read [TODOS] before either
    writes it back, so the second still holds the slice it read when the
    first has already written a longer one. Both are answered as created,
    the store holds only the second todo, and the first is lost. *)
Lemma concurrent_addTodo_loses_a_todo :
  let a := Gin.mkTodo "5" "Water the plants" false in
  let b := Gin.mkTodo "6" "Call the bank" false in
  let srv := run Gin.step [0; 1; 0; 1] (Gin.accept [Some a; Some b] Gin.TODOS) in
  run Gin.step [0; 1; 0] (Gin.accept [Some a; Some b] Gin.TODOS)
  = mkServer [ Gin.Answered (Gin.mkResponse Gin.StatusCreated (Gin.OneTodo a));
               Gin.Appending b Gin.TODOS ]
             (Gin.TODOS ++ [a])
  ∧ Gin.created srv = [a; b]
  ∧ store srv = Gin.TODOS ++ [b]
  ∧ (a ∉ store srv)
  ∧ ¬ Gin.undisturbed [Some a; Some b] Gin.TODOS.
Proof.
  intros a b srv.
  assert (a ∉ store srv) as Hlost.
  { apply (bool_decide_unpack _). by vm_compute. }
  split; [done|]. split; [done|]. split; [done|]. split; [exact Hlost|].
  intros Hclaim. apply Hlost, (Hclaim [0; 1; 0; 1] a).
  apply elem_of_cons. by left.
Qed.

(** The book service under the same schedule of reads and writes: two
    [createBook] requests that both read [nextID] before either increments
    it store two books under the same ID. *)
Lemma concurrent_createBook_reuses_an_id :
  let a := Fiber.mkBook 0 "Dune" "Frank Herbert" "Fiction" 412 true 1965 in
  let b := Fiber.mkBook 0 "Emma" "Jane Austen" "Fiction" 474 true 1815 in
  let srv := run Fiber.step [0; 1; 0; 0; 0; 0; 1; 1; 1; 1]
                 (Fiber.accept [Some a; Some b] Fiber.initial) in
  Fiber.library (store srv)
  = Fiber.library Fiber.initial ++ [Fiber.setID a 5; Fiber.setID b 5]
  ∧ Fiber.nextID (store srv) = 7%Z
  ∧ ¬ Fiber.distinctIDs (store srv).
Proof.
  intros a b srv. split; [by vm_compute|]. split; [by vm_compute|].
  intros Hdistinct. apply (bool_decide_pack _) in Hdistinct.
  by vm_compute in Hdistinct.
Qed.

(** * The todo handlers that look a todo up by its ID *)

Section TodoLookup.
Import Gin.

Lemma getTodoById_None (todos : list Todo) (id : string) :
  id ∉ ID <$> todos → getTodoById todos id = None.
Proof.
  induction todos as [|t rest IH]; simpl; [done|].
  intros [Hhd Htl]%not_elem_of_cons.
  destruct (String.eqb_spec (ID t) id) as [Heq|_]; [by subst|].
  by rewrite IH.
Qed.

(** The loop passes over the todos with another ID. *)
Lemma getTodoById_app (before rest : list Todo) (id : string) :
  id ∉ ID <$> before →
  getTodoById (before ++ rest) id
  = (λ '(i, found), (length before + i, found)) <$> getTodoById rest id.
Proof.
  induction before as [|t before IH]; simpl.
  - intros _. by destruct (getTodoById rest id) as [[i found]|].
  - intros [Hhd Htl]%not_elem_of_cons.
    destruct (String.eqb_spec (ID t) id) as [Heq|_]; [by subst|].
    rewrite (IH Htl). by destruct (getTodoById rest id) as [[i found]|].
Qed.

Lemma getTodoById_middle (before after : list Todo) (todo : Todo) :
  ID todo ∉ ID <$> before →
  getTodoById (before ++ todo :: after) (ID todo) = Some (length before, todo).
Proof.
  intros Hfresh. rewrite (getTodoById_app _ _ _ Hfresh). simpl.
  rewrite String.eqb_refl. simpl. by rewrite Nat.add_0_r.
Qed.

(** A todo is found by an ID it is stored under, and only then; what is
    found is the first todo with this ID. *)
Lemma getTodoById_split (todos : list Todo) (id : string) (i : nat) (todo : Todo) :
  getTodoById todos id = Some (i, todo) →
  ∃ before after,
    todos = before ++ todo :: after ∧ length before = i
    ∧ ID todo = id ∧ id ∉ ID <$> before.
Proof.
  revert i. induction todos as [|t rest IH]; intros i; simpl; [done|].
  destruct (String.eqb_spec (ID t) id) as [Heq|Hne].
  - intros [= <- <-]. exists [], rest. split_and!; try done.
    simpl. apply not_elem_of_nil.
  - destruct (getTodoById rest id) as [[j found]|] eqn:Hrest; simpl; [|done].
    intros [= <- <-].
    destruct (IH j eq_refl) as (before & after & -> & <- & <- & Hfresh).
    exists (t :: before), after. split_and!; try done.
    simpl. by apply not_elem_of_cons.
Qed.

(** [deleteTodo] looks for the todo as [getTodoById] does. *)
Lemma deleteTodoLoop_getTodoById (i : nat) (rest todos : list Todo) (id : string) :
  deleteTodoLoop i rest todos id
  = match getTodoById rest id with
    | Some (j, _) =>
        (mkResponse StatusOK (Message "Todo deleted"), delete (i + j) todos)
    | None => (mkResponse StatusNotFound (Message "Todo not found"), todos)
    end.
Proof.
  revert i. induction rest as [|t rest IH]; intros i; simpl; [done|].
  destruct (String.eqb (ID t) id); [by rewrite Nat.add_0_r|].
  rewrite IH. destruct (getTodoById rest id) as [[j found]|]; simpl; [|done].
  by rewrite Nat.add_succ_r.
Qed.

Lemma deleteTodo_getTodoById (todos : list Todo) (id : string) :
  deleteTodo id todos
  = match getTodoById todos id with
    | Some (i, _) => (mkResponse StatusOK (Message "Todo deleted"), delete i todos)
    | None => (mkResponse StatusNotFound (Message "Todo not found"), todos)
    end.
Proof. apply deleteTodoLoop_getTodoById. Qed.

End TodoLookup.

(** X1. [getTodo] answers with the first todo stored under the ID: for a
    store in which no todo before [todo] has the ID of [todo], the answer
    to that ID is 200 with [todo], and the store is left as it was. *)
Theorem getTodo_first_match (before after : list Gin.Todo) (todo : Gin.Todo) :
  Gin.ID todo ∉ Gin.ID <$> before →
  Gin.getTodo (Gin.ID todo) (before ++ todo :: after)
  = (Gin.mkResponse Gin.StatusOK (Gin.OneTodo todo), before ++ todo :: after).
Proof.
  intros Hfresh. unfold Gin.getTodo. by rewrite getTodoById_middle.
Qed.

(** The theorem where two todos share the ID "2": the first is returned. *)
Lemma getTodo_first_match_witness :
  let first := Gin.mkTodo "2" "Read a book" false in
  let second := Gin.mkTodo "2" "Write code" true in
  let before := [Gin.mkTodo "1" "Buy groceries" false] in
  (Gin.ID first ∉ Gin.ID <$> before)
  ∧ Gin.getTodo "2" (before ++ first :: [second])
    = (Gin.mkResponse Gin.StatusOK (Gin.OneTodo first), before ++ first :: [second]).
Proof.
  intros first second before.
  assert (Gin.ID first ∉ Gin.ID <$> before) as Hfresh
    by (apply (bool_decide_unpack _); by vm_compute).
  split; [exact Hfresh|].
  exact (getTodo_first_match before [second] first Hfresh).
Defined.

(** X2. For an ID that no todo of the store has, [getTodo],
    [updateTodoStatus] and [deleteTodo] all answer 404 "Todo not found"
    and leave the store as it was. *)
Theorem unknown_todo_not_found (id : string) (todos : list Gin.Todo) :
  id ∉ Gin.ID <$> todos →
  let notFound := Gin.mkResponse Gin.StatusNotFound (Gin.Message "Todo not found") in
  Gin.getTodo id todos = (notFound, todos)
  ∧ Gin.updateTodoStatus id todos = (notFound, todos)
  ∧ Gin.deleteTodo id todos = (notFound, todos).
Proof.
  intros Hmissing notFound.
  rewrite deleteTodo_getTodoById. unfold Gin.getTodo, Gin.updateTodoStatus.
  by rewrite (getTodoById_None _ _ Hmissing).
Qed.

Lemma unknown_todo_not_found_witness :
  ("9" ∉ Gin.ID <$> Gin.TODOS)
  ∧ let notFound := Gin.mkResponse Gin.StatusNotFound (Gin.Message "Todo not found") in
    Gin.getTodo "9" Gin.TODOS = (notFound, Gin.TODOS)
    ∧ Gin.updateTodoStatus "9" Gin.TODOS = (notFound, Gin.TODOS)
    ∧ Gin.deleteTodo "9" Gin.TODOS = (notFound, Gin.TODOS).
Proof.
  assert ("9" ∉ Gin.ID <$> Gin.TODOS) as Hmissing
    by (apply (bool_decide_unpack _); by vm_compute).
  split; [exact Hmissing|].
  exact (unknown_todo_not_found "9" Gin.TODOS Hmissing).
Defined.

(** X3. [deleteTodo] removes exactly the first todo stored under the ID
    and keeps every other todo in its place and order. *)
Theorem deleteTodo_removes_first_match (before after : list Gin.Todo)
    (todo : Gin.Todo) :
  Gin.ID todo ∉ Gin.ID <$> before →
  Gin.deleteTodo (Gin.ID todo) (before ++ todo :: after)
  = (Gin.mkResponse Gin.StatusOK (Gin.Message "Todo deleted"), before ++ after).
Proof.
  intros Hfresh. rewrite deleteTodo_getTodoById, getTodoById_middle by done.
  by rewrite delete_middle.
Qed.

Lemma deleteTodo_removes_first_match_witness :
  let first := Gin.mkTodo "2" "Read a book" false in
  let second := Gin.mkTodo "2" "Write code" true in
  let before := [Gin.mkTodo "1" "Buy groceries" false] in
  (Gin.ID first ∉ Gin.ID <$> before)
  ∧ Gin.deleteTodo "2" (before ++ first :: [second])
    = (Gin.mkResponse Gin.StatusOK (Gin.Message "Todo deleted"),
       before ++ [second]).
Proof.
  intros first second before.
  assert (Gin.ID first ∉ Gin.ID <$> before) as Hfresh
    by (apply (bool_decide_unpack _); by vm_compute).
  split; [exact Hfresh|].
  exact (deleteTodo_removes_first_match before [second] first Hfresh).
Defined.

Section TodoStore.
Import Gin.

Lemma getTodoById_absent (todos : list Todo) (id : string) :
  getTodoById todos id = None → id ∉ ID <$> todos.
Proof.
  intros Hnone Hin. destruct (getTodoById_present todos id Hin) as [found Hsome].
  congruence.
Qed.

Lemma updateTodoStatus_middle (before after : list Todo) (todo : Todo) :
  ID todo ∉ ID <$> before →
  updateTodoStatus (ID todo) (before ++ todo :: after)
  = (mkResponse StatusOK (OneTodo (toggle todo)), before ++ toggle todo :: after).
Proof.
  intros Hfresh. unfold updateTodoStatus.
  rewrite getTodoById_middle by done. by rewrite insert_middle.
Qed.

(** The status parameter only adds a test on the completed flag to the
    test on the query. *)
Lemma keepTodo_status `{GoStrings} (query : string) (todo : Todo) :
  keepTodo query "true" todo = keepTodo query "" todo && Completed todo
  ∧ keepTodo query "false" todo = keepTodo query "" todo && negb (Completed todo).
Proof.
  unfold keepTodo. simpl.
  destruct (negb (String.eqb query "") && negb (containsIgnoreCase (Item todo) query));
    [done|]. by destruct (Completed todo).
Qed.

Lemma getTodosLoop_filter `{GoStrings} (query status : string) (todos : list Todo) :
  getTodosLoop query status todos = List.filter (keepTodo query status) todos.
Proof. unfold getTodosLoop. by rewrite getTodosLoop_from. Qed.

End TodoStore.

(** X4. A todo added under an ID that no stored todo has can be read back:
    [getTodo] with its ID answers 200 with exactly the todo that was sent,
    from the store that [addTodo] left. *)
Theorem addTodo_then_getTodo (todo : Gin.Todo) (todos : list Gin.Todo) :
  Gin.ID todo ∉ Gin.ID <$> todos →
  Gin.getTodo (Gin.ID todo) (snd (Gin.addTodo (Some todo) todos))
  = (Gin.mkResponse Gin.StatusOK (Gin.OneTodo todo), todos ++ [todo]).
Proof.
  intros Hfresh. simpl. unfold Gin.getTodo. by rewrite getTodoById_middle.
Qed.

Lemma addTodo_then_getTodo_witness :
  let todo := Gin.mkTodo "5" "Water the plants" false in
  (Gin.ID todo ∉ Gin.ID <$> Gin.TODOS)
  ∧ Gin.getTodo "5" (snd (Gin.addTodo (Some todo) Gin.TODOS))
    = (Gin.mkResponse Gin.StatusOK (Gin.OneTodo todo), Gin.TODOS ++ [todo]).
Proof.
  intros todo.
  assert (Gin.ID todo ∉ Gin.ID <$> Gin.TODOS) as Hfresh
    by (apply (bool_decide_unpack _); by vm_compute).
  split; [exact Hfresh|]. exact (addTodo_then_getTodo todo Gin.TODOS Hfresh).
Defined.

(** X5. [addTodo] does not look at the IDs in the store. A todo added
    under an ID that a stored todo already has is appended all the same,
    and the handlers that go by ID never reach it while the older todo is
    there: [getTodo] answers as before, and [updateTodoStatus] and
    [deleteTodo] act on the older todo and leave the new one at the end. *)
Theorem addTodo_duplicate_id_is_shadowed (todo : Gin.Todo) (todos : list Gin.Todo) :
  Gin.ID todo ∈ Gin.ID <$> todos →
  let added := snd (Gin.addTodo (Some todo) todos) in
  added = todos ++ [todo]
  ∧ fst (Gin.getTodo (Gin.ID todo) added) = fst (Gin.getTodo (Gin.ID todo) todos)
  ∧ snd (Gin.updateTodoStatus (Gin.ID todo) added)
    = snd (Gin.updateTodoStatus (Gin.ID todo) todos) ++ [todo]
  ∧ snd (Gin.deleteTodo (Gin.ID todo) added)
    = snd (Gin.deleteTodo (Gin.ID todo) todos) ++ [todo].
Proof.
  intros Hin added. subst added. simpl. split; [done|].
  destruct (getTodoById_present _ _ Hin) as [[i old] Hfind].
  destruct (getTodoById_split _ _ _ _ Hfind) as (before & after & -> & _ & Hid & Hfresh).
  rewrite <- Hid in *. rewrite <- !app_assoc. simpl.
  unfold Gin.getTodo. rewrite !getTodoById_middle by done.
  rewrite !updateTodoStatus_middle by done.
  rewrite !deleteTodo_getTodoById, !getTodoById_middle by done.
  rewrite !delete_middle. simpl. by rewrite <- !app_assoc.
Qed.

Lemma addTodo_duplicate_id_is_shadowed_witness :
  let todo := Gin.mkTodo "2" "Water the plants" true in
  (Gin.ID todo ∈ Gin.ID <$> Gin.TODOS)
  ∧ let added := snd (Gin.addTodo (Some todo) Gin.TODOS) in
    added = Gin.TODOS ++ [todo]
    ∧ fst (Gin.getTodo (Gin.ID todo) added)
      = fst (Gin.getTodo (Gin.ID todo) Gin.TODOS)
    ∧ snd (Gin.updateTodoStatus (Gin.ID todo) added)
      = snd (Gin.updateTodoStatus (Gin.ID todo) Gin.TODOS) ++ [todo]
    ∧ snd (Gin.deleteTodo (Gin.ID todo) added)
      = snd (Gin.deleteTodo (Gin.ID todo) Gin.TODOS) ++ [todo].
Proof.
  intros todo.
  assert (Gin.ID todo ∈ Gin.ID <$> Gin.TODOS) as Hin
    by (apply (bool_decide_unpack _); by vm_compute).
  split; [exact Hin|]. exact (addTodo_duplicate_id_is_shadowed todo Gin.TODOS Hin).
Defined.

(** X6. Adding a todo under an ID that no stored todo has and then
    deleting that ID gives back the store of before. *)
Theorem addTodo_then_deleteTodo (todo : Gin.Todo) (todos : list Gin.Todo) :
  Gin.ID todo ∉ Gin.ID <$> todos →
  Gin.deleteTodo (Gin.ID todo) (snd (Gin.addTodo (Some todo) todos))
  = (Gin.mkResponse Gin.StatusOK (Gin.Message "Todo deleted"), todos).
Proof.
  intros Hfresh. simpl.
  rewrite deleteTodo_getTodoById, getTodoById_middle by done.
  by rewrite delete_middle, app_nil_r.
Qed.

Lemma addTodo_then_deleteTodo_witness :
  let todo := Gin.mkTodo "5" "Water the plants" false in
  (Gin.ID todo ∉ Gin.ID <$> Gin.TODOS)
  ∧ Gin.deleteTodo "5" (snd (Gin.addTodo (Some todo) Gin.TODOS))
    = (Gin.mkResponse Gin.StatusOK (Gin.Message "Todo deleted"), Gin.TODOS).
Proof.
  intros todo.
  assert (Gin.ID todo ∉ Gin.ID <$> Gin.TODOS) as Hfresh
    by (apply (bool_decide_unpack _); by vm_compute).
  split; [exact Hfresh|]. exact (addTodo_then_deleteTodo todo Gin.TODOS Hfresh).
Defined.

(** X7. In a store whose IDs are pairwise distinct a deleted todo is gone:
    after [deleteTodo], [getTodo] with the same ID answers 404. (With a
    second todo under the ID, X5, that one is found instead.) *)
Theorem deleteTodo_then_getTodo (id : string) (todos : list Gin.Todo) :
  NoDup (Gin.ID <$> todos) →
  Gin.getTodo id (snd (Gin.deleteTodo id todos))
  = (Gin.mkResponse Gin.StatusNotFound (Gin.Message "Todo not found"),
     snd (Gin.deleteTodo id todos)).
Proof.
  intros Hdistinct. rewrite deleteTodo_getTodoById. unfold Gin.getTodo.
  destruct (Gin.getTodoById todos id) as [[i found]|] eqn:Hfind; simpl.
  - destruct (getTodoById_split _ _ _ _ Hfind)
      as (before & after & -> & <- & Hid & Hfresh).
    rewrite delete_middle. rewrite getTodoById_None; [done|].
    rewrite fmap_app, fmap_cons, Hid in Hdistinct.
    apply NoDup_app in Hdistinct as (_ & _ & [Hafter _]%NoDup_cons).
    rewrite fmap_app. by apply not_elem_of_app.
  - by rewrite Hfind.
Qed.

Lemma deleteTodo_then_getTodo_witness :
  NoDup (Gin.ID <$> Gin.TODOS)
  ∧ Gin.getTodo "2" (snd (Gin.deleteTodo "2" Gin.TODOS))
    = (Gin.mkResponse Gin.StatusNotFound (Gin.Message "Todo not found"),
       snd (Gin.deleteTodo "2" Gin.TODOS)).
Proof.
  assert (NoDup (Gin.ID <$> Gin.TODOS)) as Hdistinct
    by (apply (bool_decide_unpack _); by vm_compute).
  split; [exact Hdistinct|]. exact (deleteTodo_then_getTodo "2" Gin.TODOS Hdistinct).
Defined.

(** X8. For every query, the lists that [getTodos] returns for the status
    "true" and for the status "false" share no place of the store and
    together hold exactly the todos returned without a status. *)
Theorem getTodos_status_partition `{GoStrings} (query : string)
    (todos : list Gin.Todo) :
  Gin.getTodosLoop query "true" todos ++ Gin.getTodosLoop query "false" todos
  ≡ₚ Gin.getTodosLoop query "" todos.
Proof.
  rewrite !getTodosLoop_filter.
  induction todos as [|todo todos IH]; [done|]. simpl.
  destruct (keepTodo_status query todo) as [-> ->].
  destruct (Gin.keepTodo query "" todo), (Gin.Completed todo); simpl; try done.
  - by f_equiv.
  - rewrite <- Permutation_middle. by f_equiv.
Qed.

(** * What racing requests cannot do *)

Section Invariants.
Context {Flow State : Type} (step : Flow → State → Flow * State).


End Invariants.


(** * The book handlers that look a book up by its ID *)

Section BookLookup.
Import Fiber.
Local Open Scope Z_scope.

Lemma findBookByID_None (books : list Book) (id : Z) :
  id ∉ ID <$> books → findBookByID books id = None.
Proof.
  induction books as [|b rest IH]; simpl; [done|].
  intros [Hhd Htl]%not_elem_of_cons.
  destruct (Z.eqb_spec (ID b) id) as [Heq|_]; [by subst|].
  by rewrite IH.
Qed.

Lemma findBookByID_present (books : list Book) (id : Z) :
  id ∈ ID <$> books → is_Some (findBookByID books id).
Proof.
  induction books as [|b rest IH]; simpl.
  - by intros ?%elem_of_nil.
  - intros Hin. destruct (Z.eqb_spec (ID b) id) as [Heq|Hne]; [by eexists|].
    apply elem_of_cons in Hin as [Hhd|Htl]; [by subst|].
    destruct (IH Htl) as [[found j] ->]. by eexists.
Qed.

Lemma findBookByID_app (before rest : list Book) (id : Z) :
  id ∉ ID <$> before →
  findBookByID (before ++ rest) id
  = (λ '(found, i), (found, (length before + i)%nat)) <$> findBookByID rest id.
Proof.
  induction before as [|b before IH]; simpl.
  - intros _. by destruct (findBookByID rest id) as [[found i]|].
  - intros [Hhd Htl]%not_elem_of_cons.
    destruct (Z.eqb_spec (ID b) id) as [Heq|_]; [by subst|].
    rewrite (IH Htl). by destruct (findBookByID rest id) as [[found i]|].
Qed.

Lemma findBookByID_middle (before after : list Book) (book : Book) :
  ID book ∉ ID <$> before →
  findBookByID (before ++ book :: after) (ID book) = Some (book, length before).
Proof.
  intros Hfresh. rewrite (findBookByID_app _ _ _ Hfresh). simpl.
  rewrite Z.eqb_refl. simpl. by rewrite Nat.add_0_r.
Qed.

Lemma findBookByID_split (books : list Book) (id : Z) (book : Book) (i : nat) :
  findBookByID books id = Some (book, i) →
  ∃ before after,
    books = before ++ book :: after ∧ length before = i
    ∧ ID book = id ∧ id ∉ ID <$> before.
Proof.
  revert i. induction books as [|b rest IH]; intros i; simpl; [done|].
  destruct (Z.eqb_spec (ID b) id) as [Heq|Hne].
  - intros [= <- <-]. exists [], rest. split_and!; try done.
    simpl. apply not_elem_of_nil.
  - destruct (findBookByID rest id) as [[found j]|] eqn:Hrest; simpl; [|done].
    intros [= <- <-].
    destruct (IH j eq_refl) as (before & after & -> & <- & <- & Hfresh).
    exists (b :: before), after. split_and!; try done.
    simpl. by apply not_elem_of_cons.
Qed.

(** [deleteBook] looks for the book as [findBookByID] does. *)
Lemma deleteBookLoop_findBookByID (i : nat) (rest : list Book) (id : Z) (s : State) :
  deleteBookLoop i rest id s
  = match findBookByID rest id with
    | Some (_, j) =>
        (mkResponse StatusOK (MessageOnly "Book deleted successfully"),
         mkState (delete (i + j)%nat (library s)) (nextID s))
    | None => (mkResponse StatusNotFound (ErrorOnly "Book not found"), s)
    end.
Proof.
  revert i. induction rest as [|b rest IH]; intros i; simpl; [done|].
  destruct (ID b =? id); [by rewrite Nat.add_0_r|].
  rewrite IH. destruct (findBookByID rest id) as [[found j]|]; simpl; [|done].
  by rewrite Nat.add_succ_r.
Qed.

Lemma alter_middle {A} (f : A → A) (before after : list A) (x : A) :
  alter f (length before) (before ++ x :: after) = before ++ f x :: after.
Proof.
  induction before as [|y before IH]; simpl; [done|]. f_equal. apply IH.
Qed.

Lemma toggled_back (book : Book) :
  setAvailable (setAvailable book (negb (Available book)))
               (negb (Available (setAvailable book (negb (Available book)))))
  = book.
Proof. destruct book. simpl. by rewrite negb_involutive. Qed.

(** What [toggleBookAvailability] does where it finds the book. *)
Lemma toggleBookAvailability_middle `{GoStrings} (idStr : string)
    (before after : list Book) (book : Book) (next : Z) :
  Atoi idStr = Some (ID book) → ID book ∉ ID <$> before →
  toggleBookAvailability idStr (mkState (before ++ book :: after) next)
  = (mkResponse StatusOK
       (MessageBook "Book availability updated"
          (setAvailable book (negb (Available book)))),
     mkState (before ++ setAvailable book (negb (Available book)) :: after) next).
Proof.
  intros Hid Hfresh. unfold toggleBookAvailability. rewrite Hid. cbn [library nextID].
  rewrite findBookByID_middle by done. rewrite alter_middle.
  by rewrite list_lookup_middle.
Qed.

(** The identifiers after one request: a sublist of those before, or
    those before and the old [nextID] behind them. *)
Lemma serve_ids `{GoStrings} (request : Request) (s : State) :
  ((ID <$> library (snd (serve request s))) `sublist_of` (ID <$> library s)
   ∧ nextID (snd (serve request s)) = nextID s)
  ∨ (ID <$> library (snd (serve request s)) = (ID <$> library s) ++ [nextID s]
     ∧ nextID (snd (serve request s)) = wrap (nextID s + 1)).
Proof.
  destruct request as [search genre available|newBook|id|id updates|id|id]; simpl.
  - by left.
  - destruct (createBook_cases newBook s) as [->|[book ->]]; [by left|].
    right. simpl. by rewrite fmap_app.
  - rewrite getBook_reads. by left.
  - destruct (updateBook_ids id updates s) as [-> ->]. by left.
  - destruct (toggleBookAvailability_ids id s) as [-> ->]. by left.
  - destruct (deleteBook_sublist id s) as [Hsub ->]. left. split; [|done].
    by apply fmap_sublist.
Qed.

End BookLookup.

(** X10. For a path ID that parses to a number no book of the library
    has, [getBook], [updateBook], [toggleBookAvailability] and
    [deleteBook] all answer 404 "Book not found" and change nothing;
    [updateBook] does so whatever the body is, parsable or not, because it
    looks the book up before it reads the body. *)
Theorem unknown_book_not_found `{GoStrings} (idStr : string) (id : Z)
    (updates : option Fiber.Book) (s : Fiber.State) :
  Atoi idStr = Some id → id ∉ Fiber.ID <$> Fiber.library s →
  let notFound :=
    Fiber.mkResponse Fiber.StatusNotFound (Fiber.ErrorOnly "Book not found") in
  Fiber.getBook idStr s = (notFound, s)
  ∧ Fiber.updateBook idStr updates s = (notFound, s)
  ∧ Fiber.toggleBookAvailability idStr s = (notFound, s)
  ∧ Fiber.deleteBook idStr s = (notFound, s).
Proof.
  intros Hid Hmissing notFound.
  unfold Fiber.getBook, Fiber.updateBook, Fiber.toggleBookAvailability,
    Fiber.deleteBook.
  rewrite Hid, deleteBookLoop_findBookByID.
  by rewrite (findBookByID_None _ _ Hmissing).
Qed.

Lemma unknown_book_not_found_witness :
  Atoi (GoStrings := Ascii7.lib) "9" = Some 9%Z
  ∧ (9%Z ∉ Fiber.ID <$> Fiber.library Fiber.initial)
  ∧ let notFound :=
      Fiber.mkResponse Fiber.StatusNotFound (Fiber.ErrorOnly "Book not found") in
    Fiber.getBook (H := Ascii7.lib) "9" Fiber.initial = (notFound, Fiber.initial)
    ∧ Fiber.updateBook (H := Ascii7.lib) "9" None Fiber.initial
      = (notFound, Fiber.initial)
    ∧ Fiber.toggleBookAvailability (H := Ascii7.lib) "9" Fiber.initial
      = (notFound, Fiber.initial)
    ∧ Fiber.deleteBook (H := Ascii7.lib) "9" Fiber.initial
      = (notFound, Fiber.initial).
Proof.
  assert (9%Z ∉ Fiber.ID <$> Fiber.library Fiber.initial) as Hmissing
    by (apply (bool_decide_unpack _); by vm_compute).
  split; [reflexivity|]. split; [exact Hmissing|].
  exact (unknown_book_not_found (H := Ascii7.lib) "9" 9 None Fiber.initial
           eq_refl Hmissing).
Defined.

(** X11. A book that [createBook] accepted can be read back under the ID
    it was given: when every stored ID is below [nextID], [getBook] with
    the old [nextID] answers 200 with the book that was sent, its ID
    replaced by that number. *)
Theorem createBook_then_getBook `{GoStrings} (idStr : string)
    (newBook : Fiber.Book) (s : Fiber.State) :
  Fiber.nextIDAbove s →
  Fiber.Title newBook ≠ "" → Fiber.Author newBook ≠ "" →
  Atoi idStr = Some (Fiber.nextID s) →
  Fiber.getBook idStr (snd (Fiber.createBook (Some newBook) s))
  = (Fiber.mkResponse Fiber.StatusOK
       (Fiber.OneBook (Fiber.setID newBook (Fiber.nextID s))),
     snd (Fiber.createBook (Some newBook) s)).
Proof.
  intros Habove Htitle Hauthor Hid.
  rewrite (createBook_effect newBook s Htitle Hauthor).
  assert (Fiber.nextID s ∉ Fiber.ID <$> Fiber.library s) as Hfresh.
  { intros (book & Hbook & Hin)%list_elem_of_fmap.
    unfold Fiber.nextIDAbove in Habove. rewrite Forall_forall in Habove.
    specialize (Habove book Hin). lia. }
  unfold Fiber.getBook. rewrite Hid. cbn [Fiber.library].
  rewrite (findBookByID_app _ _ _ Hfresh). simpl.
  by rewrite Z.eqb_refl.
Qed.

Lemma createBook_then_getBook_witness :
  let newBook := Fiber.mkBook 77 "Dune" "Frank Herbert" "Fiction" 412 true 1965 in
  Fiber.nextIDAbove Fiber.initial
  ∧ Fiber.Title newBook ≠ "" ∧ Fiber.Author newBook ≠ ""
  ∧ Atoi (GoStrings := Ascii7.lib) "5" = Some (Fiber.nextID Fiber.initial)
  ∧ Fiber.getBook (H := Ascii7.lib) "5"
      (snd (Fiber.createBook (Some newBook) Fiber.initial))
    = (Fiber.mkResponse Fiber.StatusOK
         (Fiber.OneBook (Fiber.setID newBook (Fiber.nextID Fiber.initial))),
       snd (Fiber.createBook (Some newBook) Fiber.initial)).
Proof.
  intros newBook.
  assert (Fiber.nextIDAbove Fiber.initial) as Habove by apply initial_Inv.
  assert (Fiber.Title newBook ≠ "") as Htitle by done.
  assert (Fiber.Author newBook ≠ "") as Hauthor by done.
  split; [exact Habove|]. split; [exact Htitle|]. split; [exact Hauthor|].
  split; [reflexivity|].
  exact (createBook_then_getBook (H := Ascii7.lib) "5" newBook Fiber.initial
           Habove Htitle Hauthor eq_refl).
Defined.

(** X12. [updateBook] on a stored ID replaces the whole book by the body,
    whatever the body holds (no field is checked, an empty title is
    stored), except for the ID, which stays the one of the path: the
    handler answers 200 with that book, and [getBook] returns it
    afterwards. *)
Theorem updateBook_then_getBook `{GoStrings} (idStr : string) (id : Z)
    (updates : Fiber.Book) (s : Fiber.State) :
  Atoi idStr = Some id → id ∈ Fiber.ID <$> Fiber.library s →
  fst (Fiber.updateBook idStr (Some updates) s)
  = Fiber.mkResponse Fiber.StatusOK
      (Fiber.MessageBook "Book updated successfully" (Fiber.setID updates id))
  ∧ fst (Fiber.getBook idStr (snd (Fiber.updateBook idStr (Some updates) s)))
    = Fiber.mkResponse Fiber.StatusOK (Fiber.OneBook (Fiber.setID updates id)).
Proof.
  intros Hid Hin.
  destruct (findBookByID_present _ _ Hin) as [[book i] Hfind].
  destruct (findBookByID_split _ _ _ _ Hfind)
    as (before & after & Hlib & <- & Hbook & Hfresh).
  unfold Fiber.updateBook. rewrite Hid, Hfind. cbn [fst snd]. split; [done|].
  unfold Fiber.getBook. rewrite Hid. cbn [Fiber.library].
  rewrite Hlib, insert_middle, (findBookByID_app _ _ _ Hfresh).
  simpl. by rewrite Z.eqb_refl.
Qed.

Lemma updateBook_then_getBook_witness :
  let updates := Fiber.mkBook 99 "" "" "" 0 false 0 in
  Atoi (GoStrings := Ascii7.lib) "2" = Some 2%Z
  ∧ (2%Z ∈ Fiber.ID <$> Fiber.library Fiber.initial)
  ∧ fst (Fiber.updateBook (H := Ascii7.lib) "2" (Some updates) Fiber.initial)
    = Fiber.mkResponse Fiber.StatusOK
        (Fiber.MessageBook "Book updated successfully" (Fiber.setID updates 2))
  ∧ fst (Fiber.getBook (H := Ascii7.lib) "2"
           (snd (Fiber.updateBook (H := Ascii7.lib) "2" (Some updates) Fiber.initial)))
    = Fiber.mkResponse Fiber.StatusOK (Fiber.OneBook (Fiber.setID updates 2)).
Proof.
  intros updates.
  assert (2%Z ∈ Fiber.ID <$> Fiber.library Fiber.initial) as Hin
    by (apply (bool_decide_unpack _); by vm_compute).
  split; [reflexivity|]. split; [exact Hin|].
  exact (updateBook_then_getBook (H := Ascii7.lib) "2" 2 updates Fiber.initial
           eq_refl Hin).
Defined.

(** X13. Two calls of [toggleBookAvailability] with the same path ID leave
    the library and [nextID] exactly as they were, whether the ID parses
    or not and whether a book has it or not. *)
Theorem toggleBookAvailability_twice `{GoStrings} (idStr : string)
    (s : Fiber.State) :
  snd (Fiber.toggleBookAvailability idStr
         (snd (Fiber.toggleBookAvailability idStr s)))
  = s.
Proof.
  destruct (Atoi idStr) as [id|] eqn:Hid.
  2: { assert (snd (Fiber.toggleBookAvailability idStr s) = s) as Hsame
         by (unfold Fiber.toggleBookAvailability; by rewrite Hid).
       by rewrite !Hsame. }
  destruct (Fiber.findBookByID (Fiber.library s) id) as [[book i]|] eqn:Hfind.
  2: { assert (snd (Fiber.toggleBookAvailability idStr s) = s) as Hsame
         by (unfold Fiber.toggleBookAvailability; by rewrite Hid, Hfind).
       by rewrite !Hsame. }
  destruct (findBookByID_split _ _ _ _ Hfind)
    as (before & after & Hlib & _ & <- & Hfresh).
  destruct s as [books next]. cbn [Fiber.library] in Hlib. subst books.
  rewrite (toggleBookAvailability_middle idStr before after book next Hid Hfresh).
  cbn [snd].
  rewrite (toggleBookAvailability_middle idStr before after
             (Fiber.setAvailable book (negb (Fiber.Available book))) next Hid Hfresh).
  cbn [snd]. by rewrite toggled_back.
Qed.

(** X14. [toggleBookAvailability] on a stored ID negates the available
    flag of the book that [getBook] returns for this ID and changes
    nothing else of it. *)
Theorem toggleBookAvailability_flips_getBook `{GoStrings} (idStr : string)
    (id : Z) (s : Fiber.State) :
  Atoi idStr = Some id → id ∈ Fiber.ID <$> Fiber.library s →
  ∃ book : Fiber.Book,
    fst (Fiber.getBook idStr s)
    = Fiber.mkResponse Fiber.StatusOK (Fiber.OneBook book)
    ∧ fst (Fiber.getBook idStr (snd (Fiber.toggleBookAvailability idStr s)))
      = Fiber.mkResponse Fiber.StatusOK
          (Fiber.OneBook
             (Fiber.setAvailable book (negb (Fiber.Available book)))).
Proof.
  intros Hid Hin.
  destruct (findBookByID_present _ _ Hin) as [[book i] Hfind].
  destruct (findBookByID_split _ _ _ _ Hfind)
    as (before & after & Hlib & _ & <- & Hfresh).
  exists book. destruct s as [books next]. cbn [Fiber.library] in *. subst books.
  rewrite (toggleBookAvailability_middle idStr before after book next Hid Hfresh).
  unfold Fiber.getBook. rewrite Hid. cbn [Fiber.library snd].
  rewrite Hfind. split; [done|].
  pose proof (findBookByID_middle before after
                (Fiber.setAvailable book (negb (Fiber.Available book))) Hfresh)
    as Hagain.
  cbn [Fiber.ID Fiber.setAvailable] in Hagain. by rewrite Hagain.
Qed.

Lemma toggleBookAvailability_flips_getBook_witness :
  Atoi (GoStrings := Ascii7.lib) "2" = Some 2%Z
  ∧ (2%Z ∈ Fiber.ID <$> Fiber.library Fiber.initial)
  ∧ ∃ book : Fiber.Book,
      fst (Fiber.getBook (H := Ascii7.lib) "2" Fiber.initial)
      = Fiber.mkResponse Fiber.StatusOK (Fiber.OneBook book)
      ∧ fst (Fiber.getBook (H := Ascii7.lib) "2"
               (snd (Fiber.toggleBookAvailability (H := Ascii7.lib) "2" Fiber.initial)))
        = Fiber.mkResponse Fiber.StatusOK
            (Fiber.OneBook
               (Fiber.setAvailable book (negb (Fiber.Available book)))).
Proof.
  assert (2%Z ∈ Fiber.ID <$> Fiber.library Fiber.initial) as Hin
    by (apply (bool_decide_unpack _); by vm_compute).
  split; [reflexivity|]. split; [exact Hin|].
  exact (toggleBookAvailability_flips_getBook (H := Ascii7.lib) "2" 2
           Fiber.initial eq_refl Hin).
Defined.

(** X15. [deleteBook] removes exactly the first book stored under the ID
    of the path, keeps every other book in its place and order, and leaves
    [nextID] alone. *)
Theorem deleteBook_removes_first_match `{GoStrings} (idStr : string)
    (before after : list Fiber.Book) (book : Fiber.Book) (next : Z) :
  Atoi idStr = Some (Fiber.ID book) → Fiber.ID book ∉ Fiber.ID <$> before →
  Fiber.deleteBook idStr (Fiber.mkState (before ++ book :: after) next)
  = (Fiber.mkResponse Fiber.StatusOK (Fiber.MessageOnly "Book deleted successfully"),
     Fiber.mkState (before ++ after) next).
Proof.
  intros Hid Hfresh. unfold Fiber.deleteBook.
  rewrite Hid, deleteBookLoop_findBookByID. cbn [Fiber.library Fiber.nextID].
  rewrite findBookByID_middle by done. cbn [Nat.add]. by rewrite delete_middle.
Qed.

Lemma deleteBook_removes_first_match_witness :
  let before := [Fiber.mkBook 1 "The Go Programming Language" "Alan Donovan"
                              "Technology" 380 true 2015] in
  let book := Fiber.mkBook 2 "Clean Code" "Robert Martin" "Technology" 464 false 2008 in
  let after := [Fiber.mkBook 2 "Clean Coder" "Robert Martin" "Technology" 256 true 2011] in
  Atoi (GoStrings := Ascii7.lib) "2" = Some (Fiber.ID book)
  ∧ (Fiber.ID book ∉ Fiber.ID <$> before)
  ∧ Fiber.deleteBook (H := Ascii7.lib) "2" (Fiber.mkState (before ++ book :: after) 5)
    = (Fiber.mkResponse Fiber.StatusOK
         (Fiber.MessageOnly "Book deleted successfully"),
       Fiber.mkState (before ++ after) 5).
Proof.
  intros before book after.
  assert (Fiber.ID book ∉ Fiber.ID <$> before) as Hfresh
    by (apply (bool_decide_unpack _); by vm_compute).
  split; [reflexivity|]. split; [exact Hfresh|].
  exact (deleteBook_removes_first_match (H := Ascii7.lib) "2" before after book 5
           eq_refl Hfresh).
Defined.

(** X16. In a library whose IDs are pairwise distinct a deleted book is
    gone: after [deleteBook], [getBook] with the same path ID answers 404. *)
Theorem deleteBook_then_getBook `{GoStrings} (idStr : string) (id : Z)
    (s : Fiber.State) :
  Fiber.distinctIDs s → Atoi idStr = Some id →
  Fiber.getBook idStr (snd (Fiber.deleteBook idStr s))
  = (Fiber.mkResponse Fiber.StatusNotFound (Fiber.ErrorOnly "Book not found"),
     snd (Fiber.deleteBook idStr s)).
Proof.
  intros Hdistinct Hid. unfold Fiber.deleteBook, Fiber.getBook.
  rewrite Hid, deleteBookLoop_findBookByID.
  destruct (Fiber.findBookByID (Fiber.library s) id) as [[found i]|] eqn:Hfind;
    cbn [snd Fiber.library].
  - destruct (findBookByID_split _ _ _ _ Hfind)
      as (before & after & Hlib & <- & Hfound & Hfresh).
    cbn [Nat.add]. rewrite Hlib, delete_middle.
    rewrite findBookByID_None; [done|].
    unfold Fiber.distinctIDs in Hdistinct.
    rewrite Hlib, fmap_app, fmap_cons, Hfound in Hdistinct.
    apply NoDup_app in Hdistinct as (_ & _ & [Hafter _]%NoDup_cons).
    rewrite fmap_app. by apply not_elem_of_app.
  - by rewrite Hfind.
Qed.

Lemma deleteBook_then_getBook_witness :
  Fiber.distinctIDs Fiber.initial
  ∧ Atoi (GoStrings := Ascii7.lib) "3" = Some 3%Z
  ∧ Fiber.getBook (H := Ascii7.lib) "3"
      (snd (Fiber.deleteBook (H := Ascii7.lib) "3" Fiber.initial))
    = (Fiber.mkResponse Fiber.StatusNotFound (Fiber.ErrorOnly "Book not found"),
       snd (Fiber.deleteBook (H := Ascii7.lib) "3" Fiber.initial)).
Proof.
  assert (Fiber.distinctIDs Fiber.initial) as Hdistinct by apply initial_Inv.
  split; [exact Hdistinct|]. split; [reflexivity|].
  exact (deleteBook_then_getBook (H := Ascii7.lib) "3" 3 Fiber.initial
           Hdistinct eq_refl).
Defined.

(** X17. Creating a book and deleting it again gives back the library of
    before, but not the counter: the ID that was handed out is spent, and
    [nextID] stays one further. *)
Theorem createBook_then_deleteBook `{GoStrings} (idStr : string)
    (newBook : Fiber.Book) (s : Fiber.State) :
  Fiber.nextIDAbove s →
  Fiber.Title newBook ≠ "" → Fiber.Author newBook ≠ "" →
  Atoi idStr = Some (Fiber.nextID s) →
  Fiber.deleteBook idStr (snd (Fiber.createBook (Some newBook) s))
  = (Fiber.mkResponse Fiber.StatusOK (Fiber.MessageOnly "Book deleted successfully"),
     Fiber.mkState (Fiber.library s) (wrap (Fiber.nextID s + 1))).
Proof.
  intros Habove Htitle Hauthor Hid.
  rewrite (createBook_effect newBook s Htitle Hauthor).
  assert (Fiber.nextID s ∉ Fiber.ID <$> Fiber.library s) as Hfresh.
  { intros (book & Hbook & Hin)%list_elem_of_fmap.
    unfold Fiber.nextIDAbove in Habove. rewrite Forall_forall in Habove.
    specialize (Habove book Hin). lia. }
  unfold Fiber.deleteBook. rewrite Hid, deleteBookLoop_findBookByID.
  cbn [Fiber.library Fiber.nextID].
  pose proof (findBookByID_middle (Fiber.library s) []
                (Fiber.setID newBook (Fiber.nextID s)) Hfresh) as Hfind.
  cbn [Fiber.ID Fiber.setID] in Hfind. rewrite Hfind. cbn [Nat.add].
  by rewrite delete_middle, app_nil_r.
Qed.

Lemma createBook_then_deleteBook_witness :
  let newBook := Fiber.mkBook 77 "Dune" "Frank Herbert" "Fiction" 412 true 1965 in
  Fiber.nextIDAbove Fiber.initial
  ∧ Fiber.Title newBook ≠ "" ∧ Fiber.Author newBook ≠ ""
  ∧ Atoi (GoStrings := Ascii7.lib) "5" = Some (Fiber.nextID Fiber.initial)
  ∧ Fiber.deleteBook (H := Ascii7.lib) "5"
      (snd (Fiber.createBook (Some newBook) Fiber.initial))
    = (Fiber.mkResponse Fiber.StatusOK
         (Fiber.MessageOnly "Book deleted successfully"),
       Fiber.mkState (Fiber.library Fiber.initial)
                     (wrap (Fiber.nextID Fiber.initial + 1))).
Proof.
  intros newBook.
  assert (Fiber.nextIDAbove Fiber.initial) as Habove by apply initial_Inv.
  assert (Fiber.Title newBook ≠ "") as Htitle by done.
  assert (Fiber.Author newBook ≠ "") as Hauthor by done.
  split; [exact Habove|]. split; [exact Htitle|]. split; [exact Hauthor|].
  split; [reflexivity|].
  exact (createBook_then_deleteBook (H := Ascii7.lib) "5" newBook Fiber.initial
           Habove Htitle Hauthor eq_refl).
Defined.

(** X18. IDs are not handed out twice while the counter has room: a number
    below [nextID] that no book of the library has (never used, or the ID
    of a deleted book) is the ID of no book after any sequence of
    requests, as long as [nextID] plus the number of requests stays within
    [int]. *)
Theorem free_ids_stay_free `{GoStrings} (requests : list Fiber.Request)
    (s : Fiber.State) (k : Z) :
  (minInt ≤ Fiber.nextID s)%Z →
  (Fiber.nextID s + Z.of_nat (length requests) ≤ maxInt)%Z →
  (k < Fiber.nextID s)%Z → k ∉ Fiber.ID <$> Fiber.library s →
  k ∉ Fiber.ID <$> Fiber.library (Fiber.serveAll requests s).
Proof.
  revert s. induction requests as [|request requests IH];
    intros s Hmin Hroom Hbelow Hfree; [done|].
  cbn [Fiber.serveAll fold_left length] in *.
  fold (Fiber.serveAll requests (snd (Fiber.serve request s))).
  destruct (serve_ids request s) as [[Hsub Hnext]|[Hids Hnext]].
  - apply IH; rewrite ?Hnext; try lia.
    intros Hin. apply Hfree. by eapply elem_of_sublist.
  - rewrite wrap_in_range in Hnext by (unfold minInt, maxInt in *; lia).
    apply IH; rewrite ?Hnext; try lia.
    rewrite Hids. apply not_elem_of_app. split; [done|].
    intros ->%list_elem_of_singleton. lia.
Qed.

Lemma free_ids_stay_free_witness :
  let newBook := Fiber.mkBook 0 "Dune" "Frank Herbert" "Fiction" 412 true 1965 in
  let requests := [Fiber.DeleteBook "3"; Fiber.CreateBook (Some newBook)] in
  let s := snd (Fiber.deleteBook (H := Ascii7.lib) "2" Fiber.initial) in
  (minInt ≤ Fiber.nextID s)%Z
  ∧ (Fiber.nextID s + Z.of_nat (length requests) ≤ maxInt)%Z
  ∧ (2 < Fiber.nextID s)%Z
  ∧ (2%Z ∉ Fiber.ID <$> Fiber.library s)
  ∧ (2%Z ∉ Fiber.ID <$> Fiber.library (Fiber.serveAll (H := Ascii7.lib) requests s)).
Proof.
  intros newBook requests s.
  assert (minInt ≤ Fiber.nextID s)%Z as Hmin by (by vm_compute).
  assert (Fiber.nextID s + Z.of_nat (length requests) ≤ maxInt)%Z as Hroom
    by (by vm_compute).
  assert (2 < Fiber.nextID s)%Z as Hbelow by (by vm_compute).
  assert (2%Z ∉ Fiber.ID <$> Fiber.library s) as Hfree
    by (apply (bool_decide_unpack _); by vm_compute).
  split; [exact Hmin|]. split; [exact Hroom|]. split; [exact Hbelow|].
  split; [exact Hfree|].
  exact (free_ids_stay_free (H := Ascii7.lib) requests s 2 Hmin Hroom Hbelow Hfree).
Defined.

Section BookFilters.
Import Fiber.

Lemma getAllBooksLoop_filter `{GoStrings} (search genre availableStr : string)
    (books : list Book) :
  getAllBooksLoop search genre availableStr books
  = List.filter (keepBook search genre availableStr) books.
Proof. unfold getAllBooksLoop. by rewrite getAllBooksLoop_from. Qed.

(** An [available] value that parses only adds a test on the available
    flag to the tests on the search term and the genre. *)
Lemma keepBook_available `{GoStrings} (search genre availableStr : string)
    (available : bool) (book : Book) :
  availableStr ≠ "" → ParseBool availableStr = Some available →
  keepBook search genre availableStr book
  = keepBook search genre "" book && Bool.eqb (Available book) available.
Proof.
  intros Hgiven Hparse. unfold keepBook. rewrite Hparse.
  destruct (String.eqb_spec availableStr "") as [|_]; [done|]. simpl.
  destruct (negb (String.eqb search "") && negb (bookMatchesSearch book search));
    [done|].
  destruct (negb (String.eqb genre "") && negb (EqualFold (Genre book) genre));
    [done|]. simpl. by destruct (Bool.eqb (Available book) available).
Qed.

End BookFilters.

(** X19. For every search term and genre, the lists that [getAllBooks]
    returns for an [available] value that parses to true and for one that
    parses to false hold together exactly the books returned without that
    parameter, each once. *)
Theorem getAllBooks_available_partition `{GoStrings}
    (search genre yes no : string) (books : list Fiber.Book) :
  yes ≠ "" → no ≠ "" →
  ParseBool yes = Some true → ParseBool no = Some false →
  Fiber.getAllBooksLoop search genre yes books
  ++ Fiber.getAllBooksLoop search genre no books
  ≡ₚ Fiber.getAllBooksLoop search genre "" books.
Proof.
  intros Hyes Hno Htrue Hfalse. rewrite !getAllBooksLoop_filter.
  induction books as [|book books IH]; [done|]. simpl.
  rewrite (keepBook_available search genre yes true book Hyes Htrue).
  rewrite (keepBook_available search genre no false book Hno Hfalse).
  destruct (Fiber.keepBook search genre "" book), (Fiber.Available book);
    simpl; try done.
  - by f_equiv.
  - rewrite <- Permutation_middle. by f_equiv.
Qed.

Lemma getAllBooks_available_partition_witness :
  "true" ≠ "" ∧ "0" ≠ ""
  ∧ ParseBool (GoStrings := Ascii7.lib) "true" = Some true
  ∧ ParseBool (GoStrings := Ascii7.lib) "0" = Some false
  ∧ Fiber.getAllBooksLoop (H := Ascii7.lib) "" "technology" "true"
      (Fiber.library Fiber.initial)
    ++ Fiber.getAllBooksLoop (H := Ascii7.lib) "" "technology" "0"
         (Fiber.library Fiber.initial)
    ≡ₚ Fiber.getAllBooksLoop (H := Ascii7.lib) "" "technology" ""
         (Fiber.library Fiber.initial).
Proof.
  assert ("true" ≠ "") as Hyes by done.
  assert ("0" ≠ "") as Hno by done.
  split; [exact Hyes|]. split; [exact Hno|]. split; [reflexivity|].
  split; [reflexivity|].
  exact (getAllBooks_available_partition (H := Ascii7.lib) "" "technology"
           "true" "0" (Fiber.library Fiber.initial) Hyes Hno eq_refl eq_refl).
Defined.


(** * The squares of the concurrency article *)

Section Scheduling.
Context {Flow State : Type} (step : Flow → State → Flow * State).

(** A property of the whole server that every turn keeps holds after
    every order of turns. *)
Lemma run_invariant_joint (J : Server Flow State → Prop) :
  (∀ srv i, J srv → J (schedule step srv i)) →
  ∀ (order : list nat) (srv : Server Flow State), J srv → J (run step order srv).
Proof.
  intros Hturn order. induction order as [|i order IH]; intros srv HJ; [done|].
  unfold run. cbn [fold_left]. apply IH. by apply Hturn.
Qed.

Lemma schedule_main (main : Flow) (others : list Flow) (s : State) :
  schedule step (mkServer (main :: others) s) 0
  = mkServer (fst (step main s) :: others) (snd (step main s)).
Proof. done. Qed.

(** The turn of a flow behind the first one. *)
Lemma schedule_other (main : Flow) (others : list Flow) (s : State) (j : nat) :
  schedule step (mkServer (main :: others) s) (S j)
  = mkServer (main :: others) s
  ∨ ∃ before flow after,
      others = before ++ flow :: after ∧ length before = j
      ∧ schedule step (mkServer (main :: others) s) (S j)
        = mkServer (main :: before ++ fst (step flow s) :: after)
                   (snd (step flow s)).
Proof.
  unfold schedule. cbn [flows store lookup list_lookup].
  destruct (others !! j) as [flow|] eqn:Hat; [|by left].
  right. exists (take j others), flow, (drop (S j) others).
  assert (length (take j others) = j) as Hlen.
  { rewrite length_take. apply lookup_lt_Some in Hat. lia. }
  split; [by rewrite take_drop_middle|]. split; [done|].
  f_equal. cbn [insert list_insert]. f_equal.
  rewrite <- (take_drop_middle others j flow Hat) at 1.
  rewrite <- Hlen at 1. apply insert_middle.
Qed.

End Scheduling.

Section SquaresFacts.
Import Squares.
Variable Sprintf : Z → Z → string.

Lemma sequentialCalculation_from (numbers : list Z) (printed : list string) :
  fold_left
    (λ printed num, printed ++ [Sprintf num (calculateSquare num)])
    numbers printed
  = printed ++ (line Sprintf <$> numbers).
Proof.
  revert printed. induction numbers as [|n numbers IH]; intros printed; simpl.
  - by rewrite app_nil_r.
  - rewrite IH. by rewrite <- app_assoc.
Qed.

(** The sequential run prints the line of each number, in the order of
    the slice. *)
Lemma sequentialCalculation_lines (numbers : list Z) :
  sequentialCalculation Sprintf numbers = line Sprintf <$> numbers.
Proof. apply (sequentialCalculation_from numbers []). Qed.

End SquaresFacts.

Section ChannelsFacts.
Import Squares Squares.Channels.
Variable Sprintf : Z → Z → string.

Lemma pending_imap (numbers : list Z) (index : nat → nat) :
  flat_map (pending Sprintf) (imap (λ i, Worker (index i)) numbers)
  = line Sprintf <$> numbers.
Proof.
  revert index. induction numbers as [|n numbers IH]; intros index; [done|].
  rewrite imap_cons. simpl. f_equal. apply (IH (index ∘ S)).
Qed.

Lemma Inv_start (numbers : list Z) :
  Inv Sprintf numbers (concurrentWithChannels numbers).
Proof.
  exists (Starting (length numbers) (length numbers)), (imap Worker numbers).
  split_and!; try done.
  - apply Forall_forall. intros g (i & n & -> & Hat)%elem_of_lookup_imap.
    simpl. by apply lookup_lt_Some in Hat.
  - unfold concurrentWithChannels. cbn [store printed results app].
    by rewrite <- (pending_imap numbers (λ i, i)).
Qed.

Lemma Inv_turn (numbers : list Z) (srv : Server Goroutine Shared) (i : nat) :
  Inv Sprintf numbers srv → Inv Sprintf numbers (schedule (step Sprintf) srv i).
Proof.
  intros (main & workers & Hflows & Hworkers & Hcap & Hmain & Hperm).
  destruct srv as [fl c]. cbn [flows store] in *. subst fl.
  destruct i as [|j].
  - rewrite schedule_main.
    destruct main as [[|more] total|[|more]| | |]; simpl in Hmain; try done.
    + destruct Hmain as (-> & Hprinted & Hstarted).
      exists (Receiving (length numbers)), workers. split_and!; try done.
      simpl. rewrite Hprinted. simpl. split; lia.
    + destruct Hmain as (-> & Hprinted & Hstarted).
      exists (Starting more (length numbers)), workers. split_and!; try done. 
      simpl. split_and!; [done|done|lia].
    + exists Returned, workers. split_and!; try done. simpl.
      destruct Hmain as [Hlen Hstarted]. split; [lia|done].
    + destruct Hmain as [Hlen Hstarted].
      cbn [step]. destruct (results c) as [|result rest] eqn:Hresults.
      * exists (Receiving (S more)), workers. split_and!; try done.
        simpl. by rewrite Hresults.
      * exists (Receiving more), workers. cbn [fst snd flows store].
        split_and!; try done.
        -- simpl. rewrite length_app. simpl. split; [lia|done].
        -- simpl. by rewrite <- app_assoc.
    + by exists Returned, workers.
  - destruct (schedule_other (step Sprintf) main workers c j)
      as [->|(before & g & after & -> & _ & ->)];
      [by exists main, workers|].
    apply Forall_app in Hworkers as [Hbefore [Hg Hafter]%Forall_cons].
    rewrite flat_map_app in Hperm. simpl in Hperm.
    destruct g as [| | |index n|]; simpl in Hg; try done.
    + cbn [step].
      destruct ((index <? started c)%nat && (length (results c) <? capacity c)%nat).
      * exists main, (before ++ Sent :: after). cbn [fst snd flows store].
        split_and!; try done;
          try (apply Forall_app; split; [done|]; by apply Forall_cons);
          try (by destruct main).
        cbn [printed results]. rewrite flat_map_app. simpl. rewrite <- Hperm.
        f_equiv. rewrite <- app_assoc. f_equiv. simpl.
        apply Permutation_middle.
      * exists main, (before ++ Worker index n :: after). cbn [fst snd flows store].
        split_and!; try done;
          try (apply Forall_app; split; [done|]; by apply Forall_cons).
        by rewrite flat_map_app.
    + exists main, (before ++ Sent :: after). cbn [step fst snd flows store].
      split_and!; try done;
        try (apply Forall_app; split; [done|]; by apply Forall_cons).
      by rewrite flat_map_app.
Qed.

Lemma Inv_run (numbers : list Z) (order : list nat) :
  Inv Sprintf numbers (run (step Sprintf) order (concurrentWithChannels numbers)).
Proof.
  apply (run_invariant_joint (step Sprintf) (Inv Sprintf numbers)).
  - intros srv i. apply Inv_turn.
  - apply Inv_start.
Qed.

End ChannelsFacts.

Section ChannelsRuns.
Import Squares Squares.Channels.
Variable Sprintf : Z → Z → string.

(** While a line is still to be sent, a goroutine that has not sent is
    there. *)
Lemma pending_worker (workers : list Goroutine) :
  flat_map (pending Sprintf) workers ≠ [] →
  ∃ before index n after, workers = before ++ Worker index n :: after.
Proof.
  induction workers as [|g workers IH]; [done|]. simpl. intros Hpending.
  destruct g as [| | |index n|];
    try (destruct (IH Hpending) as (before & index & n & after & ->);
         by eexists (_ :: before), index, n, after).
  by exists [], index, n, workers.
Qed.

Lemma Returned_printed_all (numbers : list Z) (srv : Server Goroutine Shared) :
  Inv Sprintf numbers srv → flows srv !! 0 = Some Returned →
  printed (store srv) ≡ₚ line Sprintf <$> numbers ∧ results (store srv) = [].
Proof.
  intros (main & workers & Hflows & _ & _ & Hmain & Hperm) Hreturned.
  rewrite Hflows in Hreturned. injection Hreturned as ->.
  destruct Hmain as [Hlen _].
  pose proof (Permutation_length Hperm) as Hlens.
  rewrite !length_app, length_fmap in Hlens.
  assert (results (store srv) = []) as Hresults
    by (apply length_zero_iff_nil; lia).
  assert (flat_map (pending Sprintf) workers = []) as Hpending
    by (apply length_zero_iff_nil; lia).
  rewrite Hresults, Hpending, !app_nil_r in Hperm. done.
Qed.

Lemma not_Returned_can_step (numbers : list Z) (srv : Server Goroutine Shared) :
  Inv Sprintf numbers srv → flows srv !! 0 ≠ Some Returned →
  ∃ i, schedule (step Sprintf) srv i ≠ srv.
Proof.
  intros (main & workers & Hflows & Hworkers & Hcap & Hmain & Hperm) Hrunning.
  destruct srv as [fl c]. cbn [flows store] in *. subst fl.
  destruct main as [[|more] total|[|more]| | |]; simpl in Hmain; try done.
  - exists 0. by rewrite schedule_main.
  - exists 0. rewrite schedule_main. simpl. intros [= Hmore]. lia.
  - exists 0. by rewrite schedule_main.
  - destruct Hmain as [Hlen Hstarted].
    destruct (results c) as [|result rest] eqn:Hresults.
    + pose proof (Permutation_length Hperm) as Hlens.
      rewrite !length_app, length_fmap in Hlens. simpl in Hlens.
      destruct (pending_worker workers) as (before & index & n & after & ->).
      { intros Hnone. rewrite Hnone in Hlens. simpl in Hlens. lia. }
      apply Forall_app in Hworkers as [_ [Hindex _]%Forall_cons]. simpl in Hindex.
      exists (length (Receiving (S more) :: before)).
      pose proof (schedule_middle (step Sprintf) (Receiving (S more) :: before)
                    after (Worker index n) c) as Hturn.
      cbn [app] in Hturn. rewrite Hturn. clear Hturn.
      cbn [step]. rewrite Hresults, Hstarted, Hcap. simpl.
      assert ((index <? length numbers)%nat = true) as -> by (by apply Nat.ltb_lt).
      assert ((0 <? length numbers)%nat = true) as -> by (apply Nat.ltb_lt; lia).
      simpl. intros [= Hsame%app_inv_head _]. done.
    + exists 0. rewrite schedule_main. simpl. rewrite Hresults. simpl.
      intros [= Hmore]. lia.
Qed.

End ChannelsRuns.

(** X21. [concurrentWithChannels] prints every result exactly once,
    whatever the order in which the goroutines run: when the main
    goroutine has left its receive loop, the lines it printed are the
    lines of [sequentialCalculation] in some order, and the channel is
    empty. *)
Theorem concurrentWithChannels_prints_every_line (Sprintf : Z → Z → string)
    (numbers : list Z) (order : list nat) :
  let srv := run (Squares.Channels.step Sprintf) order
                 (Squares.Channels.concurrentWithChannels numbers) in
  flows srv !! 0 = Some Squares.Channels.Returned →
  Squares.Channels.printed (store srv)
  ≡ₚ Squares.sequentialCalculation Sprintf numbers
  ∧ Squares.Channels.results (store srv) = [].
Proof.
  intros srv Hreturned. rewrite sequentialCalculation_lines.
  apply Returned_printed_all; [|done]. apply Inv_run.
Qed.

(** The theorem for the numbers 1, 2, 3 when the third goroutine sends
    first. *)
Lemma concurrentWithChannels_prints_every_line_witness :
  let Sprintf := λ n result : Z,
    if (n =? 1)%Z then "1^2 = 1" else if (n =? 2)%Z then "2^2 = 4" else "3^2 = 9" in
  let srv := run (Squares.Channels.step Sprintf) [0; 0; 0; 0; 3; 1; 2; 0; 0; 0; 0]
                 (Squares.Channels.concurrentWithChannels [1; 2; 3]%Z) in
  flows srv !! 0 = Some Squares.Channels.Returned
  ∧ Squares.Channels.printed (store srv) = ["3^2 = 9"; "1^2 = 1"; "2^2 = 4"]
  ∧ Squares.Channels.printed (store srv)
    ≡ₚ Squares.sequentialCalculation Sprintf [1; 2; 3]%Z
    ∧ Squares.Channels.results (store srv) = [].
Proof.
  intros Sprintf srv. split; [reflexivity|]. split; [reflexivity|].
  exact (concurrentWithChannels_prints_every_line Sprintf [1; 2; 3]%Z
           [0; 0; 0; 0; 3; 1; 2; 0; 0; 0; 0] eq_refl).
Defined.

(** X22. [concurrentWithChannels] cannot deadlock: in every state that a
    run can reach, as long as the main goroutine has not left its receive
    loop, some goroutine is able to take a step (the buffer of
    [len(numbers)] never blocks a sender, and a receive only waits while a
    sender is still to come). *)
Theorem concurrentWithChannels_can_always_step (Sprintf : Z → Z → string)
    (numbers : list Z) (order : list nat) :
  let srv := run (Squares.Channels.step Sprintf) order
                 (Squares.Channels.concurrentWithChannels numbers) in
  flows srv !! 0 ≠ Some Squares.Channels.Returned →
  ∃ i, schedule (Squares.Channels.step Sprintf) srv i ≠ srv.
Proof.
  intros srv Hrunning. apply (not_Returned_can_step Sprintf numbers); [|done].
  apply Inv_run.
Qed.

(** The theorem where the main goroutine waits in its receive loop and
    no result was sent yet. *)
Lemma concurrentWithChannels_can_always_step_witness :
  let Sprintf := λ n result : Z,
    if (n =? 1)%Z then "1^2 = 1" else if (n =? 2)%Z then "2^2 = 4" else "3^2 = 9" in
  let srv := run (Squares.Channels.step Sprintf) [0; 0; 0; 0; 0]
                 (Squares.Channels.concurrentWithChannels [1; 2; 3]%Z) in
  flows srv !! 0 ≠ Some Squares.Channels.Returned
  ∧ ∃ i, schedule (Squares.Channels.step Sprintf) srv i ≠ srv.
Proof.
  intros Sprintf srv.
  assert (flows srv !! 0 ≠ Some Squares.Channels.Returned) as Hrunning by done.
  split; [exact Hrunning|].
  exact (concurrentWithChannels_can_always_step Sprintf [1; 2; 3]%Z
           [0; 0; 0; 0; 0] Hrunning).
Defined.

Section WaitGroupFacts.
Import Squares Squares.WaitGroup.
Variable Sprintf : Z → Z → string.
Local Open Scope Z_scope.

Lemma total_app (l1 l2 : list Z) :
  foldr Z.add 0 (l1 ++ l2) = foldr Z.add 0 l1 + foldr Z.add 0 l2.
Proof. induction l1 as [|z l1 IH]; simpl; lia. Qed.

Lemma unfinished_total_nonneg (workers : list Goroutine) :
  0 ≤ foldr Z.add 0 (unfinished <$> workers).
Proof.
  induction workers as [|g workers IH]; [done|].
  rewrite fmap_cons. cbn [foldr]. destruct g; cbn [unfinished]; lia.
Qed.

Lemma unfinished_total_app (before after : list Goroutine) (g : Goroutine) :
  foldr Z.add 0 (unfinished <$> before ++ g :: after)
  = foldr Z.add 0 (unfinished <$> before) + unfinished g
    + foldr Z.add 0 (unfinished <$> after).
Proof. rewrite fmap_app, fmap_cons, total_app. cbn [foldr]. lia. Qed.

Lemma unfinished_imap (numbers : list Z) (index : nat → nat) :
  foldr Z.add 0 (unfinished <$> imap (λ i, Computing (index i)) numbers)
  = Z.of_nat (length numbers)
  ∧ flat_map (pending Sprintf) (imap (λ i, Computing (index i)) numbers)
    = line Sprintf <$> numbers.
Proof.
  revert index. induction numbers as [|n numbers IH]; intros index; [done|].
  rewrite imap_cons. destruct (IH (index ∘ S)) as [Htotal Hlines].
  cbn [fmap list_fmap foldr flat_map unfinished pending length app].
  fold (fmap (M := list) unfinished (imap ((λ i, Computing (index i)) ∘ S) numbers)).
  fold (fmap (M := list) (line Sprintf) numbers).
  split; [|by f_equal].
  change ((λ i, Computing (index i)) ∘ S) with (λ i, Computing ((index ∘ S) i)).
  rewrite Htotal. lia.
Qed.

Lemma all_finished_none_pending (workers : list Goroutine) :
  foldr Z.add 0 (unfinished <$> workers) = 0 →
  flat_map (pending Sprintf) workers = [].
Proof.
  induction workers as [|g workers IH]; [done|].
  pose proof (unfinished_total_nonneg workers).
  rewrite fmap_cons. cbn [foldr flat_map].
  destruct g; cbn [unfinished pending app]; intros Htotal;
    try (apply IH; lia); exfalso; lia.
Qed.

Lemma WaitGroup_Inv_start (numbers : list Z) :
  Inv Sprintf numbers (concurrentCalculation numbers).
Proof.
  destruct (unfinished_imap numbers (λ i, i)) as [Htotal Hlines].
  exists (Adding (length numbers)), (imap Computing numbers).
  split_and!; try done.
  - apply Forall_forall. by intros g (i & n & -> & Hat)%elem_of_lookup_imap.
  - exists (Z.of_nat (length numbers)). split; [done|].
    unfold concurrentCalculation. cbn [store counter]. rewrite <- Htotal. done.
  - unfold concurrentCalculation. cbn [store printed app]. by rewrite <- Hlines.
Qed.

Lemma WaitGroup_Inv_turn (numbers : list Z) (srv : Server Goroutine Shared)
    (i : nat) :
  Inv Sprintf numbers srv → Inv Sprintf numbers (schedule (step Sprintf) srv i).
Proof.
  intros (main & workers & Hflows & Hworkers & (more & Hmore & Hcount) & Hpassed & Hperm).
  destruct srv as [fl c]. cbn [flows store] in *. subst fl.
  destruct i as [|j].
  - rewrite schedule_main.
    destruct main as [[|left']| | | | |]; simpl in Hmore; try done;
      injection Hmore as <-; cbn [step].
    + exists Waiting, workers. split_and!; try done. by exists 0.
    + exists (Adding left'), workers. cbn [fst snd flows store counter printed].
      split_and!; try done. exists (Z.of_nat left'). split; [done|]. lia.
    + destruct (Z.eqb_spec (counter c) 0) as [Hzero|_].
      * exists Passed, workers. split_and!; try done. by exists 0.
      * exists Waiting, workers. split_and!; try done. by exists 0.
    + exists Passed, workers. split_and!; try done. by exists 0.
  - destruct (schedule_other (step Sprintf) main workers c j)
      as [->|(before & g & after & -> & _ & ->)].
    { exists main, workers. split_and!; try done. by exists more. }
    apply Forall_app in Hworkers as [Hbefore [Hg Hafter]%Forall_cons].
    rewrite flat_map_app in Hperm. simpl in Hperm.
    rewrite unfinished_total_app in Hcount.
    pose proof (unfinished_total_nonneg before) as Hb.
    pose proof (unfinished_total_nonneg after) as Ha.
    destruct g as [| | |index n| |]; simpl in Hg; try done; cbn [step].
    + destruct (index <? started c)%nat.
      * exists main, (before ++ Deferred :: after).
        cbn [fst snd flows store counter printed].
        split_and!; try done;
          try (apply Forall_app; split; [done|]; by apply Forall_cons).
        -- exists more. split; [done|]. rewrite unfinished_total_app.
           simpl in *. lia.
        -- rewrite flat_map_app. simpl. rewrite <- Hperm.
           rewrite <- app_assoc. f_equiv. simpl. apply Permutation_middle.
      * exists main, (before ++ Computing index n :: after).
        cbn [fst snd flows store].
        split_and!; try done;
          try (apply Forall_app; split; [done|]; by apply Forall_cons).
        -- exists more. split; [done|]. by rewrite unfinished_total_app.
        -- by rewrite flat_map_app.
    + exists main, (before ++ Finished :: after).
      cbn [fst snd flows store counter printed].
      split_and!; try done;
        try (apply Forall_app; split; [done|]; by apply Forall_cons).
      * exists more. split; [done|]. rewrite unfinished_total_app.
        simpl in *. lia.
      * intros ->. specialize (Hpassed eq_refl). injection Hmore as <-.
        simpl in Hcount. lia.
      * by rewrite flat_map_app.
    + exists main, (before ++ Finished :: after). cbn [fst snd flows store].
      split_and!; try done;
        try (apply Forall_app; split; [done|]; by apply Forall_cons).
      * exists more. split; [done|]. by rewrite unfinished_total_app.
      * by rewrite flat_map_app.
Qed.

Lemma WaitGroup_Inv_run (numbers : list Z) (order : list nat) :
  Inv Sprintf numbers (run (step Sprintf) order (concurrentCalculation numbers)).
Proof.
  apply (run_invariant_joint (step Sprintf) (Inv Sprintf numbers)).
  - intros srv i. apply WaitGroup_Inv_turn.
  - apply WaitGroup_Inv_start.
Qed.

Lemma Passed_printed_all (numbers : list Z) (srv : Server Goroutine Shared) :
  Inv Sprintf numbers srv → flows srv !! 0%nat = Some Passed →
  printed (store srv) ≡ₚ line Sprintf <$> numbers.
Proof.
  intros (main & workers & Hflows & _ & (more & Hmore & Hcount) & Hzero & Hperm)
    Hpassed.
  rewrite Hflows in Hpassed. injection Hpassed as ->.
  injection Hmore as <-. rewrite (Hzero eq_refl) in Hcount.
  rewrite all_finished_none_pending, app_nil_r in Hperm; [done|lia].
Qed.

End WaitGroupFacts.

(** X23. [concurrentCalculation] waits for every goroutine: whatever the
    order in which the goroutines run, when [wg.Wait()] has returned every
    line was printed, exactly once: the lines printed are those of
    [sequentialCalculation] in some order. (The slice is shorter than
    2^31, the range of the counter of a wait group.) *)
Theorem concurrentCalculation_waits_for_every_line (Sprintf : Z → Z → string)
    (numbers : list Z) (order : list nat) :
  (Z.of_nat (length numbers) < 2 ^ 31)%Z →
  let srv := run (Squares.WaitGroup.step Sprintf) order
                 (Squares.WaitGroup.concurrentCalculation numbers) in
  flows srv !! 0 = Some Squares.WaitGroup.Passed →
  Squares.WaitGroup.printed (store srv)
  ≡ₚ Squares.sequentialCalculation Sprintf numbers.
Proof.
  intros _ srv Hpassed. rewrite sequentialCalculation_lines.
  apply (Passed_printed_all Sprintf numbers); [|done]. apply WaitGroup_Inv_run.
Qed.

(** The theorem for the numbers 1, 2, 3 when the second goroutine prints
    first. *)
Lemma concurrentCalculation_waits_for_every_line_witness :
  let Sprintf := λ n result : Z,
    if (n =? 1)%Z then "1^2 = 1" else if (n =? 2)%Z then "2^2 = 4" else "3^2 = 9" in
  let srv := run (Squares.WaitGroup.step Sprintf)
                 [0; 0; 2; 0; 0; 0; 1; 3; 2; 1; 3; 0]
                 (Squares.WaitGroup.concurrentCalculation [1; 2; 3]%Z) in
  (Z.of_nat (length [1; 2; 3]%Z) < 2 ^ 31)%Z
  ∧ flows srv !! 0 = Some Squares.WaitGroup.Passed
  ∧ Squares.WaitGroup.printed (store srv) = ["2^2 = 4"; "1^2 = 1"; "3^2 = 9"]
  ∧ Squares.WaitGroup.printed (store srv)
    ≡ₚ Squares.sequentialCalculation Sprintf [1; 2; 3]%Z.
Proof.
  intros Sprintf srv.
  assert (Z.of_nat (length [1; 2; 3]%Z) < 2 ^ 31)%Z as Hshort by (by vm_compute).
  split; [exact Hshort|]. split; [reflexivity|]. split; [reflexivity|].
  exact (concurrentCalculation_waits_for_every_line Sprintf [1; 2; 3]%Z
           [0; 0; 2; 0; 0; 0; 1; 3; 2; 1; 3; 0] Hshort eq_refl).
Defined.

Section BookCounter.
Import Fiber.
Local Open Scope Z_scope.

(** Only the answer 201 of [createBook] moves the counter. *)
Lemma serve_created `{GoStrings} (request : Request) (s : State) :
  (status (fst (serve request s)) = StatusCreated
   ∧ nextID (snd (serve request s)) = wrap (nextID s + 1))
  ∨ (status (fst (serve request s)) ≠ StatusCreated
     ∧ nextID (snd (serve request s)) = nextID s).
Proof.
  destruct request as [search genre available|newBook|id|id updates|id|id];
    cbn [serve].
  - by right.
  - unfold createBook. destruct newBook as [book|]; [|by right].
    destruct (String.eqb (Title book) "" || String.eqb (Author book) "");
      [by right|by left].
  - right. unfold getBook. destruct (Atoi id); [|done].
    by destruct (findBookByID (library s) _) as [[book i]|].
  - right. unfold updateBook. destruct (Atoi id); [|done].
    destruct (findBookByID (library s) _) as [[book i]|]; [|done].
    by destruct updates.
  - right. unfold toggleBookAvailability. destruct (Atoi id); [|done].
    destruct (findBookByID (library s) _) as [[book i]|]; [|done].
    by destruct (alter _ i (library s) !! i).
  - right. unfold deleteBook. destruct (Atoi id); [|done].
    rewrite deleteBookLoop_findBookByID.
    by destruct (findBookByID (library s) _) as [[book i]|].
Qed.

End BookCounter.

(** X24. The counter keeps count of the books ever created: after any
    sequence of requests served in turn, [nextID] is what it was plus the
    number of answers with status 201, as long as that stays within
    [int]. A request that was rejected (400, 404) or one of another route
    uses up no ID. *)
Theorem nextID_counts_created_books `{GoStrings} (requests : list Fiber.Request)
    (s : Fiber.State) :
  (minInt ≤ Fiber.nextID s)%Z →
  (Fiber.nextID s + Z.of_nat (length requests) ≤ maxInt)%Z →
  Fiber.nextID (snd (serveInTurn Fiber.serve requests s))
  = (Fiber.nextID s
     + Z.of_nat (length (List.filter
                           (λ response, Fiber.status response =? Fiber.StatusCreated)%nat
                           (fst (serveInTurn Fiber.serve requests s)))))%Z.
Proof.
  revert s. induction requests as [|request requests IH]; intros s Hmin Hroom.
  - simpl. lia.
  - cbn [serveInTurn length] in *.
    destruct (serve_created request s) as [[Hstatus Hnext]|[Hstatus Hnext]];
      destruct (Fiber.serve request s) as [response s1]; cbn [fst snd] in *;
      specialize (IH s1);
      destruct (serveInTurn Fiber.serve requests s1) as [responses s2];
      cbn [fst snd List.filter] in *.
    + rewrite wrap_in_range in Hnext by (unfold minInt, maxInt in *; lia).
      rewrite Hstatus, Nat.eqb_refl. cbn [length].
      rewrite IH by lia. lia.
    + apply Nat.eqb_neq in Hstatus. rewrite Hstatus.
      rewrite IH by lia. lia.
Qed.

(** The theorem from the initial library: one book is accepted, one is
    rejected for its empty title. *)
Lemma nextID_counts_created_books_witness :
  let requests :=
    [ Fiber.CreateBook (Some (Fiber.mkBook 0 "Dune" "Frank Herbert" "Fiction" 412 true 1965));
      Fiber.CreateBook (Some (Fiber.mkBook 0 "" "Jane Austen" "Fiction" 474 true 1815));
      Fiber.DeleteBook "2" ] in
  (minInt ≤ Fiber.nextID Fiber.initial)%Z
  ∧ (Fiber.nextID Fiber.initial + Z.of_nat (length requests) ≤ maxInt)%Z
  ∧ Fiber.nextID (snd (serveInTurn (Fiber.serve (H := Ascii7.lib)) requests Fiber.initial))
    = 6%Z
  ∧ Fiber.nextID (snd (serveInTurn (Fiber.serve (H := Ascii7.lib)) requests Fiber.initial))
    = (Fiber.nextID Fiber.initial
       + Z.of_nat (length (List.filter
                             (λ response, Fiber.status response =? Fiber.StatusCreated)%nat
                             (fst (serveInTurn (Fiber.serve (H := Ascii7.lib))
                                     requests Fiber.initial)))))%Z.
Proof.
  intros requests.
  assert (minInt ≤ Fiber.nextID Fiber.initial)%Z as Hmin by (by vm_compute).
  assert (Fiber.nextID Fiber.initial + Z.of_nat (length requests) ≤ maxInt)%Z
    as Hroom by (by vm_compute).
  split; [exact Hmin|]. split; [exact Hroom|]. split; [reflexivity|].
  exact (nextID_counts_created_books (H := Ascii7.lib) requests Fiber.initial
           Hmin Hroom).
Defined.
